(** * create-or-update-dataset.py: metadata-to-catalog reconciliation

    A shallow embedding of [api-scripts/create-or-update-dataset.py] and the
    properties of its five components: the field extractor [_get_from_mcf],
    the license resolver [_find_license], the geometry builder
    [_get_wgs84_bbox], the content digest [_hash_file_sha256] and the
    reconciliation driver [main].

    Python objects are modelled by the inductive type [value]; exceptions by
    [exn]; a computation that may raise by [result].  Python [str] is
    modelled by [string] restricted to ASCII code points: the whitespace and
    case tables below are the ASCII part of Python's. *)

From Stdlib Require Import ZArith Ascii String Strings.Byte List Lia.
From stdpp Require Import base option list gmap strings.
From Equations Require Import Equations.

Set Warnings "-register-all".
Local Open Scope Z_scope.

(** ** Python [str] methods used by the script *)

Module PyStr.

(** [str.isspace] on one ASCII character: TAB, LF, VT, FF, CR, the four
    separators FS, GS, RS, US, and the space. *)
Definition isspace (c : ascii) : bool :=
  match c with
  | "009" | "010" | "011" | "012" | "013"
  | "028" | "029" | "030" | "031" | " " => true
  | _ => false
  end%char.

(** The ASCII lowercase letters, [a] to [z]: the characters [str.upper]
    changes in an ASCII string. *)
Definition islower (c : ascii) : bool :=
  let n := N_of_ascii c in ((97 <=? n) && (n <=? 122))%N.

(** [str.upper] on one ASCII character. *)
Definition upper_char (c : ascii) : ascii :=
  if islower c then ascii_of_N (N_of_ascii c - 32) else c.

Fixpoint map (f : ascii -> ascii) (s : string) : string :=
  match s with
  | EmptyString => EmptyString
  | String c s' => String (f c) (map f s')
  end.

Fixpoint forallb (p : ascii -> bool) (s : string) : bool :=
  match s with
  | EmptyString => true
  | String c s' => p c && forallb p s'
  end.

Fixpoint lstrip (s : string) : string :=
  match s with
  | EmptyString => EmptyString
  | String c s' => if isspace c then lstrip s' else s
  end.

Fixpoint rstrip (s : string) : string :=
  match s with
  | EmptyString => EmptyString
  | String c s' =>
      match rstrip s' with
      | EmptyString => if isspace c then EmptyString else String c EmptyString
      | r => String c r
      end
  end.

(** [s.strip()] *)
Definition strip (s : string) : string := rstrip (lstrip s).

(** [s.replace(a, b)] for one-character [a] and [b]. *)
Definition replace_char (a b : ascii) (s : string) : string :=
  map (fun c => if Ascii.eqb c a then b else c) s.

(** [s.upper()] *)
Definition upper (s : string) : string := map upper_char s.

(** [s.endswith(c)] for a one-character suffix. *)
Fixpoint endswith_char (s : string) (c : ascii) : bool :=
  match s with
  | EmptyString => false
  | String a EmptyString => Ascii.eqb a c
  | String _ s' => endswith_char s' c
  end.

(** [s.split(c)] for a one-character separator: always at least one
    piece; empty pieces are kept. *)
Fixpoint split_char (c : ascii) (s : string) : list string :=
  match s with
  | EmptyString => [EmptyString]
  | String a s' =>
      if Ascii.eqb a c then EmptyString :: split_char c s'
      else match split_char c s' with
           | [] => [String a EmptyString]
           | p :: ps => String a p :: ps
           end
  end.

(** Truth value of a [str]: non-empty. *)
Definition truthy (s : string) : bool :=
  match s with EmptyString => false | _ => true end.

(** The character map of [sanitize]: [replace(' ', '-')] then [upper()]. *)
Definition sanitize_char (c : ascii) : ascii :=
  upper_char (if Ascii.eqb c " " then "-"%char else c).

(** Neither a space nor one of the ASCII lowercase letters [a] to [z]. *)
Definition clean (c : ascii) : bool :=
  negb (Ascii.eqb c " ") && negb (islower c).

(** The first, and the last, character is not whitespace. *)
Definition head_ok (s : string) : bool :=
  match s with
  | EmptyString => true
  | String c _ => negb (isspace c)
  end.

Fixpoint last_ok (s : string) : bool :=
  match s with
  | EmptyString => true
  | String c EmptyString => negb (isspace c)
  | String _ s' => last_ok s'
  end.

End PyStr.

(** ** Python values and exceptions *)

(** A finite [float]: [m * 2^e]; the two infinities and NaN apart. *)
Inductive pyfloat :=
| FFinite (m e : Z)
| FInf (negative : bool)
| FNan.

(** What [yaml.load] can put in an MCF: scalars, lists and mappings.  A
    mapping keeps its insertion order, as a Python [dict] does
    ([list(d.values())[0]] is its first entry), so it is an association
    list; keys are strings. *)
Inductive value :=
| VNone
| VBool (b : bool)
| VInt (z : Z)
| VFloat (f : pyfloat)
| VStr (s : string)
| VList (l : list value)
| VDict (d : list (string * value)).

Inductive exn :=
| KeyError (key : value)
| TypeError
| IndexError
| ValueError
| OverflowError
| AttributeError
| AssertionError (msg : string)
| NotFound                       (* ckanapi.errors.NotFound *)
| CKANAPIError (detail : string) (* any other failure of the catalog client *).

Inductive result (A : Type) :=
| Ok (a : A)
| Raise (e : exn).
Arguments Ok {A} a.
Arguments Raise {A} e.

(** ** License resolver *)

(** One entry of [catalog.action.license_list()]; [lic_legacy_ids] is
    [None] when the entry has no ['legacy_ids'] key. *)
Record license := {
  lic_id : string;
  lic_url : string;
  lic_title : string;
  lic_legacy_ids : option (list string)
}.

#[global] Instance license_eq_dec : EqDecision license.
Proof. solve_decision. Defined.

(** [license_string.strip().replace(' ', '-').upper()] *)
Definition sanitize (license_string : string) : string :=
  PyStr.upper (PyStr.replace_char " " "-" (PyStr.strip license_string)).

(** [if not license_url.endswith('/'): license_url = f'{license_url}/'] *)
Definition normalize_url (license_url : string) : string :=
  if PyStr.endswith_char license_url "/" then license_url
  else license_url +:+ "/".

(** One turn of the loop over [known_licenses]; the pair is
    [(string_to_licenseid, url_to_licenseid)]. *)
Definition add_license (acc : gmap string string * gmap string string)
    (license_data : license) : gmap string string * gmap string string :=
  let license_id := lic_id license_data in
  let url_to_licenseid := <[lic_url license_data := license_id]> (acc.2) in
  let string_to_licenseid := <[lic_title license_data := license_id]> (acc.1) in
  let string_to_licenseid :=
    match lic_legacy_ids license_data with
    | Some ids =>
        fold_left (fun m legacy_id => <[legacy_id := license_id]> m)
                  ids string_to_licenseid
    | None => string_to_licenseid
    end in
  (string_to_licenseid, url_to_licenseid).

Definition license_indices (known_licenses : list license)
  : gmap string string * gmap string string :=
  fold_left add_license known_licenses (∅, ∅).

Definition string_to_licenseid (known_licenses : list license) :=
  (license_indices known_licenses).1.
Definition url_to_licenseid (known_licenses : list license) :=
  (license_indices known_licenses).2.

(** [d[k]] on a [dict] with string keys. *)
Definition getitem (d : gmap string string) (k : string) : result string :=
  match d !! k with
  | Some v => Ok v
  | None => Raise (KeyError (VStr k))
  end.

(** The two [return] statements of [_find_license]. *)
Definition url_lookup (license_url : string) (known_licenses : list license)
  : result string :=
  getitem (url_to_licenseid known_licenses) license_url.

Definition title_lookup (sanitized_license_string : string)
    (known_licenses : list license) : result string :=
  getitem (string_to_licenseid known_licenses) sanitized_license_string.

(** [_find_license(license_string, license_url, known_licenses)].  The two
    string arguments come out of the MCF, so they are Python values: a
    value without [strip] or [endswith] raises [AttributeError]. *)
Definition _find_license (license_string license_url : value)
    (known_licenses : list license) : result string :=
  match license_string with
  | VStr license_string =>
      let sanitized_license_string := sanitize license_string in
      match license_url with
      | VStr license_url =>
          let license_url := normalize_url license_url in
          if PyStr.truthy license_url
          then url_lookup license_url known_licenses
          else title_lookup sanitized_license_string known_licenses
      | _ => Raise AttributeError
      end
  | _ => Raise AttributeError
  end.

(** ** Primitive operations on Python values *)

Fixpoint assoc (key : string) (d : list (string * value)) : option value :=
  match d with
  | [] => None
  | (k, v) :: d' => if String.eqb k key then Some v else assoc key d'
  end.

(** [v[key]] with a [str] key: only a mapping can be indexed that way; a
    missing key is a [KeyError], every other type a [TypeError]. *)
Definition subscript (v : value) (key : string) : result value :=
  match v with
  | VDict d =>
      match assoc key d with
      | Some x => Ok x
      | None => Raise (KeyError (VStr key))
      end
  | _ => Raise TypeError
  end.

(** [v[0]] *)
Definition subscript0 (v : value) : result value :=
  match v with
  | VList (x :: _) => Ok x
  | VList [] => Raise IndexError
  | VStr (String c _) => Ok (VStr (String c EmptyString))
  | VStr EmptyString => Raise IndexError
  | VDict _ => Raise (KeyError (VInt 0))
  | _ => Raise TypeError
  end.

(** [bool(v)] *)
Definition truthy (v : value) : bool :=
  match v with
  | VNone => false
  | VBool b => b
  | VInt z => negb (z =? 0)
  | VFloat (FFinite m _) => negb (m =? 0)
  | VFloat _ => true
  | VStr s => PyStr.truthy s
  | VList l => match l with [] => false | _ => true end
  | VDict d => match d with [] => false | _ => true end
  end.

Fixpoint chars (s : string) : list value :=
  match s with
  | EmptyString => []
  | String c s' => VStr (String c EmptyString) :: chars s'
  end.

(** [iter(v)], as a [for] loop, a comprehension or an unpacking runs it. *)
Definition iterate (v : value) : result (list value) :=
  match v with
  | VList l => Ok l
  | VStr s => Ok (chars s)
  | VDict d => Ok (map (fun kv => VStr kv.1) d)
  | _ => Raise TypeError
  end.

(** [d.values()] *)
Definition values (v : value) : result (list value) :=
  match v with
  | VDict d => Ok (map snd d)
  | _ => Raise AttributeError
  end.

Definition digit (c : ascii) : option Z :=
  let n := Z.of_N (N_of_ascii c) in
  if (48 <=? n) && (n <=? 57) then Some (n - 48) else None.

(** Decimal digits, single underscores allowed between them. *)
Fixpoint digits (acc : Z) (after_digit : bool) (s : string) : option Z :=
  match s with
  | EmptyString => if after_digit then Some acc else None
  | String c s' =>
      match digit c with
      | Some d => digits (10 * acc + d) true s'
      | None =>
          if Ascii.eqb c "_" && after_digit then
            match s' with
            | String c' _ =>
                match digit c' with
                | Some _ => digits acc false s'
                | None => None
                end
            | EmptyString => None
            end
          else None
      end
  end.

(** The whitespace [int] skips around the literal of an ASCII string: that
    of C's [isspace] (TAB, LF, VT, FF, CR and the space).  The separators
    FS, GS, RS, US, which [str.strip] removes, are not skipped. *)
Definition int_isspace (c : ascii) : bool :=
  match c with
  | "009" | "010" | "011" | "012" | "013" | " " => true
  | _ => false
  end%char.

Fixpoint int_lstrip (s : string) : string :=
  match s with
  | EmptyString => EmptyString
  | String c s' => if int_isspace c then int_lstrip s' else s
  end.

Fixpoint int_rstrip (s : string) : string :=
  match s with
  | EmptyString => EmptyString
  | String c s' =>
      match int_rstrip s' with
      | EmptyString => if int_isspace c then EmptyString else String c EmptyString
      | r => String c r
      end
  end.

Fixpoint count_digits (s : string) : Z :=
  match s with
  | EmptyString => 0
  | String c s' =>
      match digit c with
      | Some _ => 1 + count_digits s'
      | None => count_digits s'
      end
  end.

(** [sys.get_int_max_str_digits()], by default. *)
Definition max_str_digits : Z := 4300.

(** [int(s)] for a [str]: optional sign, then the digits; a literal of more
    than [max_str_digits] digits is refused. *)
Definition int_of_str (s : string) : option Z :=
  let literal := int_rstrip (int_lstrip s) in
  if max_str_digits <? count_digits literal then None
  else
    match literal with
    | String "+" r => digits 0 false r
    | String "-" r => Z.opp <$> digits 0 false r
    | r => digits 0 false r
    end.

(** [int(v)]: a float is truncated towards zero. *)
Definition int (v : value) : result Z :=
  match v with
  | VInt z => Ok z
  | VBool b => Ok (if b then 1 else 0)
  | VFloat (FFinite m e) =>
      Ok (if 0 <=? e then m * 2 ^ e else Z.quot m (2 ^ (- e)))
  | VFloat (FInf _) => Raise OverflowError
  | VFloat FNan => Raise ValueError
  | VStr s => match int_of_str s with Some z => Ok z | None => Raise ValueError end
  | _ => Raise TypeError
  end.

(** ** The catalog, the environment and the events of a run *)

(** A dataset record as [package_show] and [package_create] return it. *)
Record package := {
  pkg_id : value;
  pkg_resources : list value
}.

(** The text [json.dumps] makes of a value, kept as the value. *)
Inductive json_text := json_dumps (v : value).

Record extra := { extra_key : string; extra_value : json_text }.

(** Keyword arguments of [catalog.action.package_create]. *)
Record package_fields := {
  pc_name : value;
  pc_title : value;
  pc_private : bool;
  pc_author : value;
  pc_author_email : value;
  pc_owner_org : string;
  pc_notes : value;
  pc_url : value;
  pc_version : value;
  pc_groups : list value;
  pc_tags : list value;
  pc_extras : list extra
}.

(** Keyword arguments of [catalog.action.resource_create]. *)
Record resource_fields := {
  rc_package_id : value;
  rc_description : string;
  rc_format : string;
  rc_hash : string;
  rc_name : string;
  rc_mimetype : string;
  rc_size : Z;
  rc_created : string;
  rc_last_modified : string;
  rc_cache_last_updated : string;
  rc_upload : list byte
}.

(** The remote catalog: what each action answers.  Every action is called
    at most once in a run. *)
Record RemoteCKAN := {
  organization_list : string -> result value;
  license_list : result (list license);
  package_show : value -> result package;
  package_create : package_fields -> result package;
  resource_create : resource_fields -> result value
}.

(** The process environment: [sys.argv[1]], the bytes of that file, the
    document [yaml.load] makes of them, and the clock: [now k] is the
    ISO text of the [k]-th [datetime.datetime.now()]. *)
Record environment := {
  argv1 : string;
  file_bytes : list byte;
  yaml_load : value;
  now : nat -> string
}.

Inductive call :=
| OrganizationList (id : string)
| LicenseList
| PackageShow (name_or_id : value)
| PackageCreate (fields : package_fields)
| ResourceCreate (fields : resource_fields).

(** Lines written by [print] and [pprint.pprint]. *)
Inductive stdout_line :=
| LookingFor (dot_keys : string)
| ListOrgNatcap (orgs : value)
| LicensesFound (n : nat)
| PPrint (pkg_dict : package)
| DirCatalogAction.

(** Messages of [LOGGER.debug] and [LOGGER.info]. *)
Inductive info_line :=
| LoadingMCF (path : string)
| CheckingPackage (name : value)
| PackageExists (name : value)
| PackageNotFound (name : value)
| CreatingResource (path : string).

Inductive event :=
| Stdout (line : stdout_line)
| Warning (msg : string)
| Info (line : info_line)
| Action (c : call).

(** A computation that emits events and returns or raises: the events
    emitted before an exception are kept. *)
Definition M (A : Type) : Type := list event * result A.

Definition ret {A} (a : A) : M A := ([], Ok a).
Definition raise {A} (e : exn) : M A := ([], Raise e).
Definition lift {A} (r : result A) : M A := ([], r).
Definition emit (ev : event) : M unit := ([ev], Ok tt).

Definition bind {A B} (m : M A) (k : A -> M B) : M B :=
  match m with
  | (evs, Ok a) => let r := k a in (evs ++ r.1, r.2)
  | (evs, Raise e) => (evs, Raise e)
  end.

(** [try: body  except <those for which handler is Some>: handler]. *)
Definition try_except {A} (body : M A) (handler : exn -> option (M A)) : M A :=
  match body with
  | (evs, Ok a) => (evs, Ok a)
  | (evs, Raise e) =>
      match handler e with
      | Some h => (evs ++ h.1, h.2)
      | None => (evs, Raise e)
      end
  end.

Declare Scope py_scope.
Delimit Scope py_scope with py.
Notation "x <- m ;; k" := (bind m (fun x => k))
  (at level 100, m at next level, right associativity) : py_scope.
Notation "m ;; k" := (bind m (fun _ => k))
  (at level 100, right associativity) : py_scope.
Local Open Scope py_scope.

(** The remote call [catalog.action.<c>(...)] answering [r]. *)
Definition action {A} (c : call) (r : result A) : M A := ([Action c], r).

(** ** Field extractor *)

Definition missing_warning (dot_keys key : string) : string :=
  "MCF does not contain " +:+ dot_keys +:+ ": " +:+ key +:+ " not found".

(** The [while True] loop of [_get_from_mcf]: [mcf_keys] is the deque, each
    turn pops its left end.  The loop returns from inside when the deque is
    empty after a successful step, so [popleft] never meets an empty deque
    unless it starts empty. *)
Fixpoint walk (dot_keys : string) (current_mcf_value : value)
    (mcf_keys : list string) : M value :=
  match mcf_keys with
  | [] => raise IndexError
  | key :: mcf_keys =>
      match subscript current_mcf_value key with
      | Ok current_mcf_value =>
          match mcf_keys with
          | [] => ret current_mcf_value
          | _ => walk dot_keys current_mcf_value mcf_keys
          end
      | Raise (KeyError _) =>
          emit (Warning (missing_warning dot_keys key)) ;;
          ret (VStr "")
      | Raise e => raise e
      end
  end.

Definition _get_from_mcf (mcf : value) (dot_keys : string) : M value :=
  emit (Stdout (LookingFor dot_keys)) ;;
  walk dot_keys mcf (PyStr.split_char "." dot_keys).

Definition _create_tags_dicts (mcf : value) : M (list value) :=
  tags_list <- _get_from_mcf mcf "identification.keywords" ;;
  names <- lift (iterate tags_list) ;;
  ret (map (fun name => VDict [("name", name)]) names).

(** ** Geometry builder *)

Definition _get_wgs84_bbox (mcf : value) : M value :=
  spatial <- _get_from_mcf mcf "identification.extents.spatial" ;;
  extent <- lift (subscript0 spatial) ;;
  crs <- lift (subscript extent "crs") ;;
  code <- lift (int crs) ;;
  if code =? 4326 then
    bbox <- lift (subscript extent "bbox") ;;
    items <- lift (iterate bbox) ;;
    match items with
    | [minx; miny; maxx; maxy] =>
        ret (VList [VList [VList [minx; maxy]; VList [minx; miny];
                           VList [maxx; miny]; VList [maxx; maxy];
                           VList [minx; maxy]]])
    | _ => raise ValueError
    end
  else raise (AssertionError "CRS must be EPSG:4326").

(** ** [hashlib.sha256]: SHA-256 of FIPS 180-4, as a streaming object *)

Module Sha256.

Definition w32 (x : Z) : Z := x mod 0x100000000.
Definition add32 (x y : Z) : Z := w32 (x + y).
Definition rotr (n x : Z) : Z :=
  w32 (Z.lor (Z.shiftr x n) (Z.shiftl x (32 - n))).
Definition shr (n x : Z) : Z := Z.shiftr x n.
Definition xor3 (x y z : Z) : Z := Z.lxor (Z.lxor x y) z.

Definition Ch (x y z : Z) : Z :=
  Z.lxor (Z.land x y) (Z.land (Z.lxor x 0xffffffff) z).
Definition Maj (x y z : Z) : Z :=
  xor3 (Z.land x y) (Z.land x z) (Z.land y z).
Definition Sigma0 (x : Z) : Z := xor3 (rotr 2 x) (rotr 13 x) (rotr 22 x).
Definition Sigma1 (x : Z) : Z := xor3 (rotr 6 x) (rotr 11 x) (rotr 25 x).
Definition sigma0 (x : Z) : Z := xor3 (rotr 7 x) (rotr 18 x) (shr 3 x).
Definition sigma1 (x : Z) : Z := xor3 (rotr 17 x) (rotr 19 x) (shr 10 x).

(** The constants of FIPS 180-4: the first 32 bits of the fractional parts
    of the cube roots (for [K]) and of the square roots (for [H0]) of the
    first primes.  [root3 n] is the integer cube root, found bit by bit. *)
Fixpoint root3_bits (k : nat) (r n : Z) : Z :=
  match k with
  | O => r
  | S k' =>
      let r' := r + 2 ^ Z.of_nat k' in
      root3_bits k' (if r' * r' * r' <=? n then r' else r) n
  end.

Definition root3 (n : Z) : Z := root3_bits 40 0 n.

Definition primes : list Z :=
  [2; 3; 5; 7; 11; 13; 17; 19; 23; 29; 31; 37; 41; 43; 47; 53;
   59; 61; 67; 71; 73; 79; 83; 89; 97; 101; 103; 107; 109; 113; 127; 131;
   137; 139; 149; 151; 157; 163; 167; 173; 179; 181; 191; 193; 197; 199;
   211; 223; 227; 229; 233; 239; 241; 251; 257; 263; 269; 271; 277; 281;
   283; 293; 307; 311].

Definition K : list Z :=
  Eval vm_compute in map (fun p => w32 (root3 (p * 2 ^ 96))) primes.

Definition H0 : list Z :=
  Eval vm_compute in map (fun p => w32 (Z.sqrt (p * 2 ^ 64))) (take 8 primes).

Definition Z_of_byte (b : byte) : Z := Z.of_N (Byte.to_N b).
Definition byte_of_Z (z : Z) : byte :=
  match Byte.of_N (Z.to_N (z mod 256)) with
  | Some b => b
  | None => x00
  end.

(** Big-endian words of a block. *)
Fixpoint words (bs : list byte) : list Z :=
  match bs with
  | a :: b :: c :: d :: bs' =>
      (Z_of_byte a * 0x1000000 + Z_of_byte b * 0x10000
       + Z_of_byte c * 0x100 + Z_of_byte d) :: words bs'
  | _ => []
  end.

Definition be32 (w : Z) : list byte :=
  [byte_of_Z (Z.shiftr w 24); byte_of_Z (Z.shiftr w 16);
   byte_of_Z (Z.shiftr w 8); byte_of_Z w].

Definition be64 (n : Z) : list byte :=
  be32 (Z.shiftr n 32) ++ be32 n.

(** Message schedule, newest word first while it grows. *)
Fixpoint extend (n : nat) (ws : list Z) : list Z :=
  match n with
  | O => ws
  | S n' =>
      let w := add32 (add32 (sigma1 (nth 1 ws 0)) (nth 6 ws 0))
                     (add32 (sigma0 (nth 14 ws 0)) (nth 15 ws 0)) in
      extend n' (w :: ws)
  end.

Definition schedule (block : list Z) : list Z :=
  rev (extend 48 (rev block)).

Definition round (s : list Z) (kw : Z * Z) : list Z :=
  match s with
  | [a; b; c; d; e; f; g; h] =>
      let T1 := add32 (add32 (add32 h (Sigma1 e)) (Ch e f g))
                      (add32 kw.1 kw.2) in
      let T2 := add32 (Sigma0 a) (Maj a b c) in
      [add32 T1 T2; a; b; c; add32 d T1; e; f; g]
  | _ => s
  end.

Fixpoint add_words (xs ys : list Z) : list Z :=
  match xs, ys with
  | x :: xs', y :: ys' => add32 x y :: add_words xs' ys'
  | _, _ => []
  end.

Definition compress (H : list Z) (block : list byte) : list Z :=
  add_words H (fold_left round (combine K (schedule (words block))) H).

(** The hash object: chaining value, pending bytes of the current block
    and number of bytes absorbed so far. *)
Record state := {
  chain : list Z;
  buffer : list byte;
  total : Z
}.

(** [hashlib.sha256()] *)
Definition init : state := {| chain := H0; buffer := []; total := 0 |}.

Definition absorb (st : state) (b : byte) : state :=
  let buf := buffer st ++ [b] in
  if (length buf =? 64)%nat
  then {| chain := compress (chain st) buf; buffer := []; total := total st + 1 |}
  else {| chain := chain st; buffer := buf; total := total st + 1 |}.

(** [h.update(data)] *)
Definition update (st : state) (data : list byte) : state :=
  fold_left absorb data st.

Definition padding (st : state) : list byte :=
  let n := Z.of_nat (length (buffer st)) in
  x80 :: repeat x00 (Z.to_nat ((55 - n) mod 64)) ++ be64 (8 * total st).

(** [h.digest()] *)
Definition digest (st : state) : list byte :=
  flat_map be32 (chain (fold_left absorb (padding st) st)).

Definition hex_digit (n : Z) : ascii :=
  nth (Z.to_nat n)
      ["0"; "1"; "2"; "3"; "4"; "5"; "6"; "7";
       "8"; "9"; "a"; "b"; "c"; "d"; "e"; "f"]%char "0"%char.

Fixpoint hex (bs : list byte) : string :=
  match bs with
  | [] => EmptyString
  | b :: bs' =>
      String (hex_digit (Z_of_byte b / 16))
             (String (hex_digit (Z_of_byte b mod 16)) (hex bs'))
  end.

(** [h.hexdigest()] *)
Definition hexdigest (st : state) : string := hex (digest st).

(** SHA-256 of a whole message, in one call. *)
Definition sha256_hex (message : list byte) : string :=
  hexdigest (update init message).

End Sha256.

(** ** Content digest *)

(** [2**16]: the size asked of each [f.read]. *)
Definition CHUNK : nat := 2 ^ 16.

Definition inspect {A : Type} (x : A) : { y : A | x = y } := exist _ x eq_refl.

(** The [while True] loop of [_hash_file_sha256].  The open file is the
    list of the bytes not read yet: [f.read(n)] returns the next [n] of them
    (fewer at the end of the file, none after it) and moves past them. *)
Equations? hash_loop (sha256 : Sha256.state) (f : list byte)
  : Sha256.state by wf (length f) lt :=
  hash_loop sha256 f with inspect (take CHUNK f) => {
    | exist _ [] _ => sha256
    | exist _ (b :: data) E =>
        hash_loop (Sha256.update sha256 (b :: data)) (drop CHUNK f) }.
Proof.
  assert (Hpos : (0 < CHUNK)%nat)
    by (apply Nat.neq_0_lt_0, Nat.pow_nonzero; discriminate).
  revert E Hpos. generalize CHUNK. intros n E Hpos.
  rewrite length_drop.
  destruct f as [|x f]; [destruct n; discriminate E|]. simpl. lia.
Qed.

Definition _hash_file_sha256 (file : list byte) : string :=
  Sha256.hexdigest (hash_loop Sha256.init file).

(** ** Reconciliation driver *)

(** [os.path.basename] *)
Definition basename (path : string) : string :=
  List.last (PyStr.split_char "/" path) EmptyString.

Definition possible_author_keys : string * list string :=
  ("individualname", ["organization"]).

(** The [for author_key in possible_author_keys] loop: it stops at the
    first key whose entry is truthy, and Python leaves [author_key] bound to
    the last key tried when no entry is. *)
Fixpoint author_key_loop (first_contact_info : value) (author_key : string)
    (rest : list string) : result string :=
  match subscript first_contact_info author_key with
  | Raise e => Raise e
  | Ok v =>
      if truthy v then Ok author_key
      else match rest with
           | [] => Ok author_key
           | k :: rest' => author_key_loop first_contact_info k rest'
           end
  end.

(** The [if _get_from_mcf(mcf, 'identification.license'):] statement. *)
Definition validate_license (mcf : value) (licenses : list license) : M unit :=
  declared <- _get_from_mcf mcf "identification.license" ;;
  if truthy declared then
    license_string <- _get_from_mcf mcf "identification.license.name" ;;
    license_url <- _get_from_mcf mcf "identification.license.url" ;;
    _ <- lift (_find_license license_string license_url licenses) ;;
    ret tt
  else ret tt.

(** The body of [except ckanapi.errors.NotFound]: the CREATE branch.  The
    keyword arguments are evaluated in the order they are written. *)
Definition create_package (catalog : RemoteCKAN) (mcf title name : value)
  : M package :=
  emit (Info (PackageNotFound name)) ;;
  contact <- lift (subscript mcf "contact") ;;
  infos <- lift (values contact) ;;
  first_contact_info <-
    lift (match infos with x :: _ => Ok x | [] => Raise IndexError end) ;;
  author_key <- lift (author_key_loop first_contact_info
                        possible_author_keys.1 possible_author_keys.2) ;;
  author <- lift (subscript first_contact_info author_key) ;;
  author_email <- lift (subscript first_contact_info "email") ;;
  notes <- _get_from_mcf mcf "identification.abstract" ;;
  url <- _get_from_mcf mcf "identification.url" ;;
  version <- _get_from_mcf mcf "identification.edition" ;;
  tags <- _create_tags_dicts mcf ;;
  coordinates <- _get_wgs84_bbox mcf ;;
  let fields := {|
    pc_name := name;
    pc_title := title;
    pc_private := false;
    pc_author := author;
    pc_author_email := author_email;
    pc_owner_org := "natcap";
    pc_notes := notes;
    pc_url := url;
    pc_version := version;
    pc_groups := [];
    pc_tags := tags;
    pc_extras :=
      [{| extra_key := "spatial";
          extra_value := json_dumps (VDict [("type", VStr "Polygon");
                                            ("coordinates", coordinates)]) |}]
  |} in
  action (PackageCreate fields) (package_create catalog fields).

(** The inner [try] ... [except ckanapi.errors.NotFound]. *)
Definition lookup_or_create (catalog : RemoteCKAN) (mcf title name : value)
  : M package :=
  try_except
    (emit (Info (CheckingPackage name)) ;;
     pkg_dict <- action (PackageShow name) (package_show catalog name) ;;
     emit (Info (PackageExists name)) ;;
     ret pkg_dict)
    (fun e => match e with
              | NotFound => Some (create_package catalog mcf title name)
              | _ => None
              end).

(** The [if not attached_resources:] statement. *)
Definition attach_resource (env : environment) (catalog : RemoteCKAN)
    (pkg_dict : package) : M unit :=
  let attached_resources := pkg_resources pkg_dict in
  match attached_resources with
  | [] =>
      emit (Info (CreatingResource (argv1 env))) ;;
      let fields := {|
        rc_package_id := pkg_id pkg_dict;
        rc_description := "Metadata Control File for this dataset";
        rc_format := "YML";
        rc_hash := "sha256:" +:+ _hash_file_sha256 (file_bytes env);
        rc_name := basename (argv1 env);
        rc_mimetype := "application/yaml";
        rc_size := Z.of_nat (length (file_bytes env));
        rc_created := now env 0%nat;
        rc_last_modified := now env 1%nat;
        rc_cache_last_updated := now env 2%nat;
        rc_upload := file_bytes env
      |} in
      _ <- action (ResourceCreate fields) (resource_create catalog fields) ;;
      ret tt
  | _ => ret tt
  end.

(** The outer [try] ... [except AttributeError]. *)
Definition reconcile (env : environment) (catalog : RemoteCKAN)
    (mcf title name : value) : M unit :=
  try_except
    (pkg_dict <- lookup_or_create catalog mcf title name ;;
     emit (Stdout (PPrint pkg_dict)) ;;
     attach_resource env catalog pkg_dict)
    (fun e => match e with
              | AttributeError => Some (emit (Stdout DirCatalogAction))
              | _ => None
              end).

Definition main (env : environment) (catalog : RemoteCKAN) : M unit :=
  emit (Info (LoadingMCF (argv1 env))) ;;
  let mcf := yaml_load env in
  orgs <- action (OrganizationList "natcap")
                 (organization_list catalog "natcap") ;;
  emit (Stdout (ListOrgNatcap orgs)) ;;
  licenses <- action LicenseList (license_list catalog) ;;
  emit (Stdout (LicensesFound (length licenses))) ;;
  validate_license mcf licenses ;;
  title <- _get_from_mcf mcf "identification.title" ;;
  name <- _get_from_mcf mcf "metadata.identifier" ;;
  reconcile env catalog mcf title name.

(** The catalog calls of a run, in order. *)
Definition calls (evs : list event) : list call :=
  omap (fun ev => match ev with Action c => Some c | _ => None end) evs.

Definition warnings (evs : list event) : list string :=
  omap (fun ev => match ev with Warning w => Some w | _ => None end) evs.

Definition is_package_create (c : call) : bool :=
  match c with PackageCreate _ => true | _ => false end.
Definition is_resource_create (c : call) : bool :=
  match c with ResourceCreate _ => true | _ => false end.
Definition is_package_show (c : call) : bool :=
  match c with PackageShow _ => true | _ => false end.

(** * Notions used in the statements *)

(** ** License resolver *)

(** The keys an entry adds to the title index: its title and its legacy
    ids, as they are. *)
Definition title_keys (L : license) : list string :=
  lic_title L :: default [] (lic_legacy_ids L).

Definition has_space_or_lower (s : string) : bool :=
  negb (PyStr.forallb PyStr.clean s).

(** ** Field extractor *)

(** The value a list of keys leads to through nested mappings. *)
Fixpoint nested (v : value) (keys : list string) : option value :=
  match keys with
  | [] => Some v
  | key :: keys' =>
      match v with
      | VDict d =>
          match assoc key d with
          | Some x => nested x keys'
          | None => None
          end
      | _ => None
      end
  end.

(** The first key of the list that the mapping reached so far lacks. *)
Fixpoint missing_segment (v : value) (keys : list string) : option string :=
  match keys with
  | [] => None
  | key :: keys' =>
      match v with
      | VDict d =>
          match assoc key d with
          | Some x => missing_segment x keys'
          | None => Some key
          end
      | _ => None
      end
  end.

Definition is_mapping (v : value) : bool :=
  match v with VDict _ => true | _ => false end.

(** ** Geometry builder and content digest *)

(** The closed ring of a bounding box. *)
Definition ring (minx miny maxx maxy : value) : value :=
  VList [VList [VList [minx; maxy]; VList [minx; miny]; VList [maxx; miny];
                VList [maxx; maxy]; VList [minx; maxy]]].

Definition is_lower_hex (c : ascii) : bool :=
  let n := N_of_ascii c in
  (((48 <=? n) && (n <=? 57)) || ((97 <=? n) && (n <=? 102)))%N.

(** ** Reconciliation driver *)

(** The dataset record a run obtained, read off its calls: what the last
    [package_show] or [package_create] call answered, if it answered. *)
Definition dataset_record (catalog : RemoteCKAN) (cs : list call) : option package :=
  fold_left
    (fun acc c =>
       match c with
       | PackageShow name_or_id =>
           match package_show catalog name_or_id with
           | Ok p => Some p
           | Raise _ => None
           end
       | PackageCreate fields =>
           match package_create catalog fields with
           | Ok p => Some p
           | Raise _ => None
           end
       | _ => acc
       end)
    cs None.

(** A computation that calls no catalog action. *)
Definition quiet {A} (m : M A) : Prop := calls m.1 = [].

(** The CREATE branch either raises before it calls the catalog, or calls
    [package_create] once, last, and ends as that call does. *)
Definition create_shape (catalog : RemoteCKAN) (m : M package) : Prop :=
  (calls m.1 = [] /\ exists e, m.2 = Raise e)
  \/ (exists fields, calls m.1 = [PackageCreate fields]
                     /\ m.2 = package_create catalog fields).

(** At most one dataset is created, at most one resource attached, and a
    resource is attached exactly when the record obtained has none. *)
Definition attaches_iff_no_resource (catalog : RemoteCKAN) (cs : list call) : Prop :=
  (length (List.filter is_package_create cs) <= 1)%nat
  /\ (length (List.filter is_resource_create cs) <= 1)%nat
  /\ ((exists fields, In (ResourceCreate fields) cs)
      <-> (exists pkg_dict, dataset_record catalog cs = Some pkg_dict
                            /\ pkg_resources pkg_dict = [])).

(** What [main] does before the outer [try]. *)
Definition prelude_events (env : environment) (orgs : value)
    (licenses : list license) : list event :=
  [Info (LoadingMCF (argv1 env)); Action (OrganizationList "natcap");
   Stdout (ListOrgNatcap orgs); Action LicenseList;
   Stdout (LicensesFound (length licenses))]
  ++ (validate_license (yaml_load env) licenses).1.

(** The keyword arguments [main] gives [resource_create] for a record. *)
Definition resource_of (env : environment) (pkg_dict : package) : resource_fields := {|
  rc_package_id := pkg_id pkg_dict;
  rc_description := "Metadata Control File for this dataset";
  rc_format := "YML";
  rc_hash := "sha256:" +:+ _hash_file_sha256 (file_bytes env);
  rc_name := basename (argv1 env);
  rc_mimetype := "application/yaml";
  rc_size := Z.of_nat (length (file_bytes env));
  rc_created := now env 0%nat;
  rc_last_modified := now env 1%nat;
  rc_cache_last_updated := now env 2%nat;
  rc_upload := file_bytes env
|}.

(** The calls of the [if not attached_resources:] statement. *)
Definition attach_calls (env : environment) (pkg_dict : package) : list call :=
  match pkg_resources pkg_dict with
  | [] => [ResourceCreate (resource_of env pkg_dict)]
  | _ => []
  end.

(** The extra [main] gives a created dataset for its extent. *)
Definition spatial_extra (coordinates : value) : extra :=
  {| extra_key := "spatial";
     extra_value := json_dumps (VDict [("type", VStr "Polygon");
                                       ("coordinates", coordinates)]) |}.

(** ** Sample data *)

Definition cc_by : license :=
  {| lic_id := "CC-BY-4.0";
     lic_url := "https://creativecommons.org/licenses/by/4.0/";
     lic_title := "CC-BY 4.0";
     lic_legacy_ids := None |}.

Definition cc_by_sa : license :=
  {| lic_id := "cc-by-sa";
     lic_url := "https://creativecommons.org/licenses/by-sa/4.0";
     lic_title := "Creative Commons Attribution Share-Alike";
     lic_legacy_ids := Some ["cc by sa"] |}.

Definition sample_mcf : value :=
  VDict [("metadata", VDict [("identifier", VStr "my-dataset")]);
         ("identification",
           VDict [("title", VStr "My dataset");
                  ("abstract", VStr "Soil and water");
                  ("license", VStr "CC-BY-4.0");
                  ("keywords", VList [VStr "water"; VStr "soil"]);
                  ("extents",
                    VDict [("spatial",
                             VList [VDict [("bbox", VList [VInt 10; VInt 20; VInt 30; VInt 40]);
                                           ("crs", VInt 4326)]])])]);
         ("contact",
           VDict [("pointOfContact",
                    VDict [("individualname", VStr "");
                           ("organization", VStr "NatCap");
                           ("email", VStr "natcap@example.org")])])].

Definition mcf_with_extent (crs : value) : value :=
  VDict [("identification",
           VDict [("extents",
                    VDict [("spatial",
                             VList [VDict [("bbox", VList [VInt 10; VInt 20; VInt 30; VInt 40]);
                                           ("crs", crs)]])])])].

(** A catalog holding the given datasets, for the end-to-end scenarios: a
    dataset that is not there is [NotFound], a created one has no resource
    yet. *)
Definition catalog_with (datasets : gmap string package) : RemoteCKAN := {|
  organization_list := fun _ => Ok (VList [VStr "natcap"]);
  license_list := Ok [cc_by];
  package_show := fun name_or_id =>
    match name_or_id with
    | VStr name =>
        match datasets !! name with
        | Some p => Ok p
        | None => Raise NotFound
        end
    | _ => Raise NotFound
    end;
  package_create := fun fields =>
    Ok {| pkg_id := pc_name fields; pkg_resources := [] |};
  resource_create := fun fields =>
    Ok (VDict [("package_id", rc_package_id fields);
               ("name", VStr (rc_name fields))])
|}.

Definition mcf_with_license (license : list (string * value)) : value :=
  VDict [("metadata", VDict [("identifier", VStr "my-dataset")]);
         ("identification",
           VDict ([("title", VStr "My dataset");
                   ("abstract", VStr "Soil and water");
                   ("keywords", VList [VStr "water"; VStr "soil"]);
                   ("extents",
                     VDict [("spatial",
                              VList [VDict [("bbox", VList [VInt 10; VInt 20; VInt 30; VInt 40]);
                                            ("crs", VInt 4326)]])])]
                  ++ license));
         ("contact",
           VDict [("pointOfContact",
                    VDict [("individualname", VStr "");
                           ("organization", VStr "NatCap");
                           ("email", VStr "natcap@example.org")])])].

Definition mcf_unresolved_license : value :=
  mcf_with_license
    [("license", VDict [("name", VStr "CC-BY 4.0"); ("url", VStr "")])].

Definition env_with (mcf : value) : environment := {|
  argv1 := "metadata/my-dataset.yml";
  file_bytes := list_byte_of_string "metadata: {identifier: my-dataset}";
  yaml_load := mcf;
  now := fun _ => "2024-05-01T12:00:00"
|}.

(** Scenario A: the identifier is not in the catalog. *)
Definition scenario_A : M unit :=
  main (env_with (mcf_with_license [])) (catalog_with ∅).

(** Scenario B: the identifier is there, with one resource. *)
Definition scenario_B : M unit :=
  main (env_with (mcf_with_license []))
       (catalog_with {[ "my-dataset" :=
                          {| pkg_id := VStr "0001";
                             pkg_resources := [VDict [("name", VStr "my-dataset.yml")]] |} ]}).

(** A catalog whose dataset lookup fails with [e]. *)
Definition catalog_failing_lookup (e : exn) : RemoteCKAN := {|
  organization_list := organization_list (catalog_with ∅);
  license_list := license_list (catalog_with ∅);
  package_show := fun _ => Raise e;
  package_create := package_create (catalog_with ∅);
  resource_create := resource_create (catalog_with ∅)
|}.

Definition mcf_with_bbox (bbox : list (string * value)) : value :=
  VDict [("identification",
           VDict [("extents",
                    VDict [("spatial",
                             VList [VDict (("crs", VStr "4326") :: bbox)])])])].

Definition mcf_contact_list : value :=
  VDict [("metadata", VDict [("identifier", VStr "my-dataset")]);
         ("identification", VDict [("title", VStr "My dataset")]);
         ("contact", VList [VDict [("organization", VStr "NatCap")]])].

Definition mcf_web_mercator : value :=
  VDict [("metadata", VDict [("identifier", VStr "my-dataset")]);
         ("identification",
           VDict [("title", VStr "My dataset");
                  ("extents",
                    VDict [("spatial",
                             VList [VDict [("bbox", VList [VInt 10; VInt 20; VInt 30; VInt 40]);
                                           ("crs", VInt 3857)]])])]);
         ("contact",
           VDict [("pointOfContact",
                    VDict [("individualname", VStr "A. Author");
                           ("organization", VStr "NatCap");
                           ("email", VStr "natcap@example.org")])])].

(** A catalog that creates datasets but refuses resources. *)
Definition catalog_refusing_resources : RemoteCKAN := {|
  organization_list := organization_list (catalog_with ∅);
  license_list := license_list (catalog_with ∅);
  package_show := package_show (catalog_with ∅);
  package_create := package_create (catalog_with ∅);
  resource_create := fun _ => Raise (CKANAPIError "Request Entity Too Large")
|}.

(** * Properties *)

(** ** Strings *)

Module PyStrFacts.
Import PyStr.

Ltac by_cases_on c := destruct c as [[] [] [] [] [] [] [] []]; reflexivity.

Lemma sanitize_char_clean c : clean (sanitize_char c) = true.
Proof. by_cases_on c. Qed.

Lemma sanitize_char_idem c : sanitize_char (sanitize_char c) = sanitize_char c.
Proof. by_cases_on c. Qed.

Lemma sanitize_char_isspace c :
  isspace c = false -> isspace (sanitize_char c) = false.
Proof. destruct c as [[] [] [] [] [] [] [] []]; intros H; (reflexivity || discriminate H). Qed.

Lemma map_map f g s : map f (map g s) = map (fun c => f (g c)) s.
Proof. induction s as [|c s IH]; simpl; [reflexivity | by rewrite IH]. Qed.

Lemma map_ext f g s : (forall c, f c = g c) -> map f s = map g s.
Proof. intros E. induction s as [|c s IH]; simpl; [reflexivity | by rewrite E, IH]. Qed.

Lemma forallb_map p f s :
  (forall c, p (f c) = true) -> forallb p (map f s) = true.
Proof. intros E. induction s as [|c s IH]; simpl; [reflexivity | by rewrite E, IH]. Qed.

Lemma lstrip_head_ok s : head_ok (lstrip s) = true.
Proof.
  induction s as [|c s IH]; simpl; [reflexivity|].
  destruct (isspace c) eqn:E; [exact IH | simpl; by rewrite E].
Qed.

Lemma rstrip_last_ok s : last_ok (rstrip s) = true.
Proof.
  induction s as [|c s IH]; simpl; [reflexivity|].
  destruct (rstrip s) as [|c' r] eqn:E.
  - destruct (isspace c) eqn:Ec; simpl; [reflexivity | by rewrite Ec].
  - exact IH.
Qed.

Lemma rstrip_head_ok s : head_ok s = true -> head_ok (rstrip s) = true.
Proof.
  destruct s as [|c s]; simpl; [reflexivity|]. intros H.
  destruct (rstrip s); [|exact H].
  destruct (isspace c) eqn:E; [discriminate H | simpl; by rewrite E].
Qed.

Lemma lstrip_id s : head_ok s = true -> lstrip s = s.
Proof. destruct s as [|c s]; simpl; [reflexivity|]. by destruct (isspace c). Qed.

Lemma rstrip_id s : last_ok s = true -> rstrip s = s.
Proof.
  induction s as [|c s IH]; simpl; [reflexivity|].
  destruct s as [|c' s'].
  - simpl. by destruct (isspace c).
  - intros H. rewrite (IH H). reflexivity.
Qed.

Lemma strip_id s : head_ok s = true -> last_ok s = true -> strip s = s.
Proof. intros Hh Hl. unfold strip. by rewrite (lstrip_id _ Hh), (rstrip_id _ Hl). Qed.

Lemma strip_head_ok s : head_ok (strip s) = true.
Proof. apply rstrip_head_ok, lstrip_head_ok. Qed.

Lemma strip_last_ok s : last_ok (strip s) = true.
Proof. apply rstrip_last_ok. Qed.

Lemma map_head_ok f s :
  (forall c, isspace c = false -> isspace (f c) = false) ->
  head_ok s = true -> head_ok (map f s) = true.
Proof.
  intros Hf. destruct s as [|c s]; simpl; [reflexivity|].
  intros H. apply negb_true_iff in H. by rewrite (Hf _ H).
Qed.

Lemma map_last_ok f s :
  (forall c, isspace c = false -> isspace (f c) = false) ->
  last_ok s = true -> last_ok (map f s) = true.
Proof.
  intros Hf. induction s as [|c s IH]; simpl; [reflexivity|].
  destruct s as [|c' s']; simpl in *.
  - intros H. apply negb_true_iff in H. by rewrite (Hf _ H).
  - exact IH.
Qed.

Lemma endswith_app_char s c : endswith_char (s +:+ String c EmptyString) c = true.
Proof.
  induction s as [|a s IH]; simpl.
  - apply Ascii.eqb_refl.
  - destruct (s +:+ String c EmptyString) eqn:E; [|exact IH].
    destruct s; discriminate E.
Qed.

End PyStrFacts.

Lemma sanitize_as_map s :
  sanitize s = PyStr.map PyStr.sanitize_char (PyStr.strip s).
Proof. unfold sanitize, PyStr.upper, PyStr.replace_char. by rewrite PyStrFacts.map_map. Qed.

(** A sanitized string holds no space and no lowercase letter. *)
Lemma sanitize_clean s : PyStr.forallb PyStr.clean (sanitize s) = true.
Proof.
  rewrite sanitize_as_map.
  apply PyStrFacts.forallb_map, PyStrFacts.sanitize_char_clean.
Qed.

(** Sanitizing twice is sanitizing once. *)
Lemma sanitize_idempotent s : sanitize (sanitize s) = sanitize s.
Proof.
  rewrite !sanitize_as_map.
  rewrite PyStrFacts.strip_id.
  - rewrite PyStrFacts.map_map. apply PyStrFacts.map_ext, PyStrFacts.sanitize_char_idem.
  - apply PyStrFacts.map_head_ok;
      [apply PyStrFacts.sanitize_char_isspace | apply PyStrFacts.strip_head_ok].
  - apply PyStrFacts.map_last_ok;
      [apply PyStrFacts.sanitize_char_isspace | apply PyStrFacts.strip_last_ok].
Qed.

(** A normalized URL ends with a slash, so it is never empty. *)
Lemma normalize_url_endswith u : PyStr.endswith_char (normalize_url u) "/" = true.
Proof.
  unfold normalize_url. destruct (PyStr.endswith_char u "/") eqn:E; [exact E|].
  apply PyStrFacts.endswith_app_char.
Qed.

Lemma normalize_url_truthy u : PyStr.truthy (normalize_url u) = true.
Proof.
  pose proof (normalize_url_endswith u) as H.
  destruct (normalize_url u); [discriminate H | reflexivity].
Qed.

(** ** License resolver *)

Section Indices.

Implicit Types (m : gmap string string) (k i : string) (L : license).

Lemma fold_legacy_lookup ids i m k :
  fold_left (fun m a => <[a := i]> m) ids m !! k
  = if decide (k ∈ ids) then Some i else m !! k.
Proof.
  revert m. induction ids as [|a ids IH]; intros m; simpl.
  - destruct (decide (k ∈ [])) as [H|H]; [by apply elem_of_nil in H | reflexivity].
  - rewrite IH. destruct (decide (k ∈ ids)) as [Hin|Hin].
    + rewrite decide_True by (by right). reflexivity.
    + destruct (decide (a = k)) as [->|Hne].
      * rewrite decide_True by left. apply lookup_insert_eq.
      * rewrite decide_False by (intros [?|?]%elem_of_cons; congruence).
        by apply lookup_insert_ne.
Qed.

Lemma add_license_title acc L k :
  (add_license acc L).1 !! k
  = if decide (k ∈ title_keys L) then Some (lic_id L) else acc.1 !! k.
Proof.
  unfold add_license, title_keys. simpl.
  destruct (lic_legacy_ids L) as [ids|]; simpl.
  - rewrite fold_legacy_lookup.
    destruct (decide (k ∈ ids)) as [Hin|Hin].
    + rewrite decide_True by (by right). reflexivity.
    + destruct (decide (lic_title L = k)) as [<-|Hne].
      * rewrite decide_True by left. apply lookup_insert_eq.
      * rewrite decide_False by (intros [?|?]%elem_of_cons; congruence).
        by apply lookup_insert_ne.
  - destruct (decide (lic_title L = k)) as [<-|Hne].
    + rewrite decide_True by left. apply lookup_insert_eq.
    + rewrite decide_False
        by (intros [?|?%elem_of_nil]%elem_of_cons; congruence).
      by apply lookup_insert_ne.
Qed.

Lemma add_license_url acc L k :
  (add_license acc L).2 !! k
  = if decide (k = lic_url L) then Some (lic_id L) else acc.2 !! k.
Proof.
  unfold add_license. simpl. destruct (decide (k = lic_url L)) as [->|H].
  - apply lookup_insert_eq.
  - by apply lookup_insert_ne.
Qed.

Lemma title_index_Some known acc k i :
  (fold_left add_license known acc).1 !! k = Some i ->
  (exists M, M ∈ known /\ k ∈ title_keys M /\ lic_id M = i)
  \/ acc.1 !! k = Some i.
Proof.
  revert acc. induction known as [|L known IH]; intros acc; simpl; [by right|].
  intros [(M & ? & ? & ?)|H]%IH.
  - left. exists M. split_and!; [by right | done | done].
  - rewrite add_license_title in H. case_decide; [|by right].
    left. exists L. split_and!; [left | done | congruence].
Qed.

Lemma title_index_None known acc k :
  (forall M, M ∈ known -> k ∉ title_keys M) ->
  (fold_left add_license known acc).1 !! k = acc.1 !! k.
Proof.
  revert acc. induction known as [|L known IH]; intros acc H; simpl; [done|].
  rewrite IH by (intros M HM; apply H; by right).
  rewrite add_license_title, decide_False; [done | apply H; left].
Qed.

Lemma url_index_Some known acc k i :
  (fold_left add_license known acc).2 !! k = Some i ->
  (exists M, M ∈ known /\ lic_url M = k /\ lic_id M = i)
  \/ acc.2 !! k = Some i.
Proof.
  revert acc. induction known as [|L known IH]; intros acc; simpl; [by right|].
  intros [(M & ? & ? & ?)|H]%IH.
  - left. exists M. split_and!; [by right | done | done].
  - rewrite add_license_url in H. case_decide; [|by right].
    left. exists L. split_and!; [left | done | congruence].
Qed.

Lemma url_index_None known acc k :
  (forall M, M ∈ known -> lic_url M ≠ k) ->
  (fold_left add_license known acc).2 !! k = acc.2 !! k.
Proof.
  revert acc. induction known as [|L known IH]; intros acc H; simpl; [done|].
  rewrite IH by (intros M HM; apply H; by right).
  rewrite add_license_url, decide_False; [done|].
  intros ->. by apply (H L); [left|].
Qed.

End Indices.

(** A successful URL lookup is owed to an entry whose [url] is the key. *)
Lemma url_lookup_Ok known k i :
  url_lookup k known = Ok i ->
  exists M, In M known /\ lic_url M = k /\ lic_id M = i.
Proof.
  unfold url_lookup, getitem, url_to_licenseid, license_indices.
  destruct (_ !! k) as [j|] eqn:E; [|discriminate]. intros [= ->].
  apply url_index_Some in E as [(M & HM & ? & ?)|E].
  - exists M. by rewrite <- list_elem_of_In.
  - simpl in E. by rewrite lookup_empty in E.
Qed.

Lemma url_lookup_KeyError known k :
  (forall M, In M known -> lic_url M <> k) ->
  url_lookup k known = Raise (KeyError (VStr k)).
Proof.
  intros H. unfold url_lookup, getitem, url_to_licenseid, license_indices.
  rewrite url_index_None; [simpl; by rewrite lookup_empty|].
  intros M HM. apply H. by rewrite <- list_elem_of_In.
Qed.

(** A successful title lookup is owed to an entry whose title or legacy id
    is the key, character for character. *)
Lemma title_lookup_Ok known k i :
  title_lookup k known = Ok i ->
  exists M, In M known /\ In k (title_keys M) /\ lic_id M = i.
Proof.
  unfold title_lookup, getitem, string_to_licenseid, license_indices.
  destruct (_ !! k) as [j|] eqn:E; [|discriminate]. intros [= ->].
  apply title_index_Some in E as [(M & HM & ? & ?)|E].
  - exists M. by rewrite <- !list_elem_of_In.
  - simpl in E. by rewrite lookup_empty in E.
Qed.

Lemma title_lookup_KeyError known k :
  (forall M, In M known -> ~ In k (title_keys M)) ->
  title_lookup k known = Raise (KeyError (VStr k)).
Proof.
  intros H. unfold title_lookup, getitem, string_to_licenseid, license_indices.
  rewrite title_index_None; [simpl; by rewrite lookup_empty|].
  intros M HM. rewrite list_elem_of_In. apply H. by rewrite <- list_elem_of_In.
Qed.

(** Whatever the two strings are, the answer comes from the URL index. *)
Lemma find_license_by_url s u known :
  _find_license (VStr s) (VStr u) known = url_lookup (normalize_url u) known.
Proof. unfold _find_license. by rewrite normalize_url_truthy. Qed.

(** A sanitized key is none of the title keys of an entry whose title holds
    a space or a lowercase letter and whose legacy ids are not in sanitized
    form. *)
Lemma sanitized_not_title_key L q :
  has_space_or_lower (lic_title L) = true ->
  (forall a, In a (default [] (lic_legacy_ids L)) -> sanitize a <> a) ->
  ~ In (sanitize q) (title_keys L).
Proof.
  intros Ht Ha [E|Hin].
  - unfold has_space_or_lower in Ht. rewrite E, sanitize_clean in Ht. discriminate Ht.
  - apply (Ha _ Hin). apply sanitize_idempotent.
Qed.

Lemma normalized_not_url L u :
  PyStr.endswith_char (lic_url L) "/" = false -> normalize_url u <> lic_url L.
Proof. intros H E. rewrite <- E, normalize_url_endswith in H. discriminate H. Qed.

(** C1 (the code departs from the claim).  The claim sends an empty
    [license_url] to the title index and expects the query
    [{name: "CC-BY 4.0", url: ""}] to resolve against a list that holds the
    title ["CC-BY 4.0"].  In the code the slash is appended to the empty URL
    as well, before [if license_url:] is tested: for every pair of strings
    the answer is the URL-index lookup of the normalized URL, the [else]
    branch is never taken, and the query of the scenario raises
    [KeyError('/')].  (Had the title branch run, its key ["CC-BY-4.0"] would
    have missed the title ["CC-BY 4.0"] as well.) *)
Theorem C1_empty_url_is_looked_up_in_url_index :
  (forall s u known,
      _find_license (VStr s) (VStr u) known = url_lookup (normalize_url u) known)
  /\ normalize_url "" = "/"
  /\ _find_license (VStr "CC-BY 4.0") (VStr "") [cc_by]
     = Raise (KeyError (VStr "/"))
  /\ title_lookup (sanitize "CC-BY 4.0") [cc_by]
     = Raise (KeyError (VStr "CC-BY-4.0")).
Proof.
  split; [apply find_license_by_url|].
  split; [reflexivity|]. split; vm_compute; reflexivity.
Qed.

(** C8.  The title branch of [_find_license] looks the sanitized query up
    among the catalog titles and legacy ids as they are: a lookup that
    succeeds found an entry one of whose title keys is the key, character
    for character.  So for a known license [L] whose title holds a space or
    a lowercase letter and none of whose legacy ids is in sanitized form, no
    query [q] resolves to [L]: the sanitized key is none of the keys of [L],
    the lookup in the index of [L] raises [KeyError], and in any list it
    raises [KeyError] unless another entry owns the key, which then
    answers. *)
Theorem C8_title_lookup_misses_unsanitized_titles :
  forall (known : list license) (L : license) (q : string),
    In L known ->
    has_space_or_lower (lic_title L) = true ->
    (forall a, In a (default [] (lic_legacy_ids L)) -> sanitize a <> a) ->
    (forall k i, title_lookup k known = Ok i ->
       exists M, In M known /\ (lic_title M = k \/ In k (default [] (lic_legacy_ids M)))
                 /\ lic_id M = i)
    /\ sanitize q <> lic_title L
    /\ ~ In (sanitize q) (default [] (lic_legacy_ids L))
    /\ title_lookup (sanitize q) [L] = Raise (KeyError (VStr (sanitize q)))
    /\ (forall i, title_lookup (sanitize q) known = Ok i ->
          exists M, In M known /\ M <> L /\ In (sanitize q) (title_keys M)
                    /\ lic_id M = i)
    /\ ((forall M, In M known -> M <> L -> ~ In (sanitize q) (title_keys M)) ->
        title_lookup (sanitize q) known = Raise (KeyError (VStr (sanitize q)))).
Proof.
  intros known L q HL Ht Ha.
  pose proof (sanitized_not_title_key L q Ht Ha) as Hk.
  split; [intros k i H; apply title_lookup_Ok in H as (M & ? & ? & ?); by exists M|].
  split; [intros E; apply Hk; by left|].
  split; [intros Hin; apply Hk; by right|].
  split; [apply title_lookup_KeyError; by intros M [<-|[]]|].
  split.
  - intros i (M & HM & Hin & Hid)%title_lookup_Ok.
    exists M. split_and!; [done | by intros -> | done | done].
  - intros H. apply title_lookup_KeyError. intros M HM.
    destruct (decide (M = L)) as [->|Hne]; [done | by apply H].
Qed.

Lemma C8_witness :
  title_lookup (sanitize "Creative Commons Attribution Share-Alike") [cc_by; cc_by_sa]
  = Raise (KeyError (VStr "CREATIVE-COMMONS-ATTRIBUTION-SHARE-ALIKE")).
Proof.
  refine (proj2 (proj2 (proj2 (proj2 (proj2
    (C8_title_lookup_misses_unsanitized_titles [cc_by; cc_by_sa] cc_by_sa
       "Creative Commons Attribution Share-Alike" _ _ _))))) _).
  - simpl. auto.
  - reflexivity.
  - intros a [<-|[]]. vm_compute. discriminate.
  - intros M [<-|[<-|[]]] Hne; [|done].
    vm_compute. intros [E|[]]. discriminate E.
Defined.

(** C9.  [_find_license] gives every queried URL a final slash and looks it
    up among the catalog [url] fields as they are.  So for a known license
    [L] whose [url] does not end with a slash, no query matches [L]: the
    normalized URL differs from the [url] of [L] (also when the query is
    that very [url]), the lookup in the index of [L] raises [KeyError], and
    in any list it raises [KeyError] unless another entry owns the
    normalized URL, which then answers. *)
Theorem C9_url_lookup_misses_urls_without_slash :
  forall (known : list license) (L : license) (s u : string),
    In L known ->
    PyStr.endswith_char (lic_url L) "/" = false ->
    normalize_url u <> lic_url L
    /\ _find_license (VStr s) (VStr (lic_url L)) [L]
       = Raise (KeyError (VStr (lic_url L +:+ "/")))
    /\ _find_license (VStr s) (VStr u) [L]
       = Raise (KeyError (VStr (normalize_url u)))
    /\ (forall i, _find_license (VStr s) (VStr u) known = Ok i ->
          exists M, In M known /\ M <> L /\ lic_url M = normalize_url u
                    /\ lic_id M = i)
    /\ ((forall M, In M known -> M <> L -> lic_url M <> normalize_url u) ->
        _find_license (VStr s) (VStr u) known
        = Raise (KeyError (VStr (normalize_url u)))).
Proof.
  intros known L s u HL Hs.
  assert (Hne : forall v, normalize_url v <> lic_url L)
    by (intros v; by apply normalized_not_url).
  split; [apply Hne|].
  assert (Hone : forall v, _find_license (VStr s) (VStr v) [L]
                           = Raise (KeyError (VStr (normalize_url v)))).
  { intros v. rewrite find_license_by_url. apply url_lookup_KeyError.
    intros M [<-|[]] E. by apply (Hne v). }
  split.
  - rewrite Hone. unfold normalize_url. by rewrite Hs.
  - split; [apply Hone|]. split.
    + intros i. rewrite find_license_by_url.
      intros (M & HM & Hurl & Hid)%url_lookup_Ok.
      exists M. split_and!; [done | | done | done].
      intros ->. by apply (Hne u).
    + intros H. rewrite find_license_by_url. apply url_lookup_KeyError.
      intros M HM E. destruct (decide (M = L)) as [->|HML].
      * by apply (Hne u).
      * by apply (H M).
Qed.

Lemma C9_witness :
  _find_license (VStr "CC-BY-SA") (VStr "https://creativecommons.org/licenses/by-sa/4.0")
                [cc_by; cc_by_sa]
  = Raise (KeyError (VStr "https://creativecommons.org/licenses/by-sa/4.0/")).
Proof.
  refine (proj2 (proj2 (proj2 (proj2
    (C9_url_lookup_misses_urls_without_slash [cc_by; cc_by_sa] cc_by_sa
       "CC-BY-SA" "https://creativecommons.org/licenses/by-sa/4.0" _ _)))) _).
  - simpl. auto.
  - reflexivity.
  - intros M [<-|[<-|[]]] Hne; [|done]. vm_compute. discriminate.
Defined.

(** ** The event monad *)

Lemma bind_Ok {A B} (m : M A) (k : A -> M B) a :
  m.2 = Ok a -> bind m k = (m.1 ++ (k a).1, (k a).2).
Proof. destruct m as [evs r]. simpl. by intros ->. Qed.

Lemma bind_Raise {A B} (m : M A) (k : A -> M B) e :
  m.2 = Raise e -> bind m k = (m.1, Raise e).
Proof. destruct m as [evs r]. simpl. by intros ->. Qed.

Lemma calls_app evs evs' : calls (evs ++ evs') = calls evs ++ calls evs'.
Proof. apply omap_app. Qed.

Lemma warnings_app evs evs' : warnings (evs ++ evs') = warnings evs ++ warnings evs'.
Proof. apply omap_app. Qed.

(** ** Field extractor *)

Lemma split_char_nonempty c s : PyStr.split_char c s <> [].
Proof.
  destruct s as [|a s]; simpl; [discriminate|].
  destruct (Ascii.eqb a c); [discriminate|].
  destruct (PyStr.split_char c s); discriminate.
Qed.

Lemma walk_present dot_keys v keys x :
  keys <> [] -> nested v keys = Some x -> walk dot_keys v keys = ([], Ok x).
Proof.
  revert v. induction keys as [|key keys IH]; intros v Hne H; [done|].
  simpl in H. destruct v as [| | | | | |d]; try discriminate H.
  simpl. destruct (assoc key d) as [y|]; [|discriminate H].
  destruct keys as [|key' keys'].
  - simpl in H. by injection H as ->.
  - by apply IH.
Qed.

Lemma walk_missing dot_keys v keys key :
  missing_segment v keys = Some key ->
  walk dot_keys v keys
  = ([Warning (missing_warning dot_keys key)], Ok (VStr "")).
Proof.
  revert v. induction keys as [|k keys IH]; intros v H; [discriminate H|].
  simpl in H. destruct v as [| | | | | |d]; try discriminate H.
  simpl. destruct (assoc k d) as [y|].
  - destruct keys as [|key' keys']; [discriminate H | by apply IH].
  - by injection H as ->.
Qed.

Lemma walk_non_mapping dot_keys v prefix key rest x :
  nested v prefix = Some x -> is_mapping x = false ->
  walk dot_keys v (prefix ++ key :: rest) = ([], Raise TypeError).
Proof.
  revert v. induction prefix as [|k prefix IH]; intros v H Hx; simpl in *.
  - injection H as ->. by destruct x.
  - destruct v as [| | | | | |d]; try discriminate H.
    simpl. destruct (assoc k d) as [y|]; [|discriminate H].
    destruct (prefix ++ key :: rest) eqn:E; [by destruct prefix | by apply IH].
Qed.

(** Nothing [_get_from_mcf] does is a catalog call. *)
Lemma walk_calls dot_keys v keys : calls (walk dot_keys v keys).1 = [].
Proof.
  revert v. induction keys as [|key keys IH]; intros v; simpl; [done|].
  destruct (subscript v key) as [y|[]]; try done.
  destruct keys; [done | apply IH].
Qed.

Lemma get_from_mcf_calls mcf dot_keys : calls (_get_from_mcf mcf dot_keys).1 = [].
Proof.
  unfold _get_from_mcf, bind. simpl.
  pose proof (walk_calls dot_keys mcf (PyStr.split_char "." dot_keys)) as H.
  destruct (walk _ _ _) as [evs []]; simpl in *; exact H.
Qed.



(** C10.  [_get_from_mcf] catches [KeyError] only.  When a proper prefix of
    the dotted path leads to a value that is not a mapping (a string, a
    list, a number, ...), indexing that value with the next segment raises
    [TypeError]; the exception reaches the caller: no empty string is
    returned and no warning is emitted.  The witness is a document whose
    [identification.license] is a string, asked for
    [identification.license.name]. *)
Theorem C10_non_mapping_segment_raises :
  forall (mcf : value) (dot_keys : string) (prefix : list string)
         (key : string) (rest : list string) (x : value),
    PyStr.split_char "." dot_keys = prefix ++ key :: rest ->
    nested mcf prefix = Some x ->
    is_mapping x = false ->
    (_get_from_mcf mcf dot_keys).2 = Raise TypeError
    /\ warnings (_get_from_mcf mcf dot_keys).1 = [].
Proof.
  intros mcf dot_keys prefix key rest x Hs Hp Hx.
  unfold _get_from_mcf. rewrite Hs, (walk_non_mapping dot_keys _ _ key rest _ Hp Hx).
  done.
Qed.

Lemma C10_witness :
  (_get_from_mcf sample_mcf "identification.license.name").2 = Raise TypeError
  /\ warnings (_get_from_mcf sample_mcf "identification.license.name").1 = [].
Proof.
  apply (C10_non_mapping_segment_raises sample_mcf "identification.license.name"
           ["identification"; "license"] "name" [] (VStr "CC-BY-4.0"));
    reflexivity.
Defined.

Lemma get_from_mcf_present mcf dot_keys v :
  nested mcf (PyStr.split_char "." dot_keys) = Some v ->
  _get_from_mcf mcf dot_keys = ([Stdout (LookingFor dot_keys)], Ok v).
Proof.
  intros H. unfold _get_from_mcf.
  by rewrite (walk_present dot_keys _ _ _ (split_char_nonempty _ _) H).
Qed.

(** ** Geometry builder *)

Lemma wgs84_bbox_at_extent mcf extent others crs :
  nested mcf ["identification"; "extents"; "spatial"]%list
  = Some (VList (extent :: others)) ->
  subscript extent "crs" = Ok crs ->
  (_get_wgs84_bbox mcf).2
  = match int crs with
    | Ok code =>
        if code =? 4326 then
          match subscript extent "bbox" with
          | Ok bbox =>
              match iterate bbox with
              | Ok [minx; miny; maxx; maxy] => Ok (ring minx miny maxx maxy)
              | Ok _ => Raise ValueError
              | Raise e => Raise e
              end
          | Raise e => Raise e
          end
        else Raise (AssertionError "CRS must be EPSG:4326")
    | Raise e => Raise e
    end.
Proof.
  intros Hs Hc. unfold _get_wgs84_bbox.
  rewrite (get_from_mcf_present mcf "identification.extents.spatial" _ Hs).
  unfold bind, lift; simpl. rewrite Hc; simpl.
  destruct (int crs) as [code|e]; simpl; [|done].
  destruct (code =? 4326); simpl; [|done].
  destruct (subscript extent "bbox") as [bbox|e]; simpl; [|done].
  destruct (iterate bbox) as [[|a [|b [|c [|d [|? ?]]]]]|e]; done.
Qed.

(** C6, as the claim states it, fails: the assertion compares [int(crs)],
    not [crs], with 4326.  The float 4326.5 (here [8653 * 2^-1]) is not
    4326, yet [int] truncates it to 4326 and the ring is returned. *)
Lemma C6_counterexample :
  VFloat (FFinite 8653 (-1)) <> VInt 4326
  /\ 8653 <> 4326 * 2 ^ 1
  /\ int (VFloat (FFinite 8653 (-1))) = Ok 4326
  /\ (_get_wgs84_bbox (mcf_with_extent (VFloat (FFinite 8653 (-1))))).2
     = Ok (VList [VList [VList [VInt 10; VInt 40]; VList [VInt 10; VInt 20];
                         VList [VInt 30; VInt 20]; VList [VInt 30; VInt 40];
                         VList [VInt 10; VInt 40]]]).
Proof. split_and!; [discriminate | discriminate | reflexivity | reflexivity]. Qed.

(** C6, amended.  The extent is the first entry of
    [identification.extents.spatial]; its [crs] is converted by [int], as
    the assertion of the code converts it.  When [int(crs)] is 4326 and the
    [bbox] is [(minx, miny, maxx, maxy)], [_get_wgs84_bbox] returns exactly
    the one closed ring
    [[[minx,maxy],[minx,miny],[maxx,miny],[maxx,maxy],[minx,maxy]]], whose
    first and last vertices are the same; when [int(crs)] is any other
    integer (3857, say) the assertion fails; and whenever [int(crs)] is not
    4326, also when [int] itself raises, the call raises and returns no
    ring. *)
Theorem C6_wgs84_bbox_ring :
  forall (mcf extent : value) (others : list value) (crs : value),
    nested mcf ["identification"; "extents"; "spatial"]%list
    = Some (VList (extent :: others)) ->
    subscript extent "crs" = Ok crs ->
    (forall minx miny maxx maxy,
        int crs = Ok 4326 ->
        subscript extent "bbox" = Ok (VList [minx; miny; maxx; maxy]) ->
        (_get_wgs84_bbox mcf).2
        = Ok (VList [VList [VList [minx; maxy]; VList [minx; miny];
                            VList [maxx; miny]; VList [maxx; maxy];
                            VList [minx; maxy]]]))
    /\ (forall code, int crs = Ok code -> code <> 4326 ->
          (_get_wgs84_bbox mcf).2 = Raise (AssertionError "CRS must be EPSG:4326"))
    /\ (int crs <> Ok 4326 -> exists e, (_get_wgs84_bbox mcf).2 = Raise e).
Proof.
  intros mcf extent others crs Hs Hc.
  rewrite (wgs84_bbox_at_extent mcf extent others crs Hs Hc).
  split; [|split].
  - intros minx miny maxx maxy -> ->. reflexivity.
  - intros code -> Hne. by apply Z.eqb_neq in Hne as ->.
  - intros Hne. destruct (int crs) as [code|e]; [|by exists e].
    destruct (code =? 4326) eqn:E; [|by eexists].
    apply Z.eqb_eq in E as ->. done.
Qed.

Lemma C6_witness :
  (_get_wgs84_bbox (mcf_with_extent (VInt 4326))).2
  = Ok (VList [VList [VList [VInt 10; VInt 40]; VList [VInt 10; VInt 20];
                      VList [VInt 30; VInt 20]; VList [VInt 30; VInt 40];
                      VList [VInt 10; VInt 40]]])
  /\ (_get_wgs84_bbox (mcf_with_extent (VInt 3857))).2
     = Raise (AssertionError "CRS must be EPSG:4326").
Proof.
  split.
  - apply (proj1 (C6_wgs84_bbox_ring (mcf_with_extent (VInt 4326)) _ [] (VInt 4326)
                    eq_refl eq_refl)); reflexivity.
  - apply (proj1 (proj2 (C6_wgs84_bbox_ring (mcf_with_extent (VInt 3857)) _ []
                           (VInt 3857) eq_refl eq_refl)) 3857);
      [reflexivity | discriminate].
Defined.

(** ** Content digest *)

Lemma CHUNK_pos : (0 < CHUNK)%nat.
Proof. unfold CHUNK. apply Nat.neq_0_lt_0, Nat.pow_nonzero. discriminate. Qed.

Lemma take_nil_inv {A} (n : nat) (l : list A) : (0 < n)%nat -> take n l = [] -> l = [].
Proof. destruct n, l; simpl; (lia || done). Qed.

(** Reading a file chunk by chunk feeds the hash object the whole file. *)
Lemma hash_loop_update st f : hash_loop st f = Sha256.update st f.
Proof.
  funelim (hash_loop st f).
  - match goal with
    | E : take CHUNK ?f = [] |- _ => by rewrite (take_nil_inv CHUNK f CHUNK_pos E)
    end.
  - match goal with
    | IH : hash_loop _ _ = Sha256.update _ _, E : take CHUNK _ = _ :: _ |- _ =>
        rewrite IH, <- E
    end.
    unfold Sha256.update. by rewrite <- fold_left_app, take_drop.
Qed.

Lemma hex_digit_lower n : is_lower_hex (Sha256.hex_digit n) = true.
Proof.
  unfold Sha256.hex_digit.
  destruct (Z.to_nat n) as [|[|[|[|[|[|[|[|[|[|[|[|[|[|[|[|[|?]]]]]]]]]]]]]]]]];
    reflexivity.
Qed.

Lemma hex_lower bs : PyStr.forallb is_lower_hex (Sha256.hex bs) = true.
Proof. induction bs as [|b bs IH]; simpl; [done|]. by rewrite !hex_digit_lower, IH. Qed.

Lemma hex_length bs : String.length (Sha256.hex bs) = (2 * length bs)%nat.
Proof. induction bs as [|b bs IH]; simpl; [done|]. rewrite IH. lia. Qed.

Lemma round_length s kw : length s = 8%nat -> length (Sha256.round s kw) = 8%nat.
Proof.
  destruct s as [|a [|b [|c [|d [|e [|f [|g [|h [|? ?]]]]]]]]]; try discriminate.
  reflexivity.
Qed.

Lemma rounds_length kws s :
  length s = 8%nat -> length (fold_left Sha256.round kws s) = 8%nat.
Proof.
  revert s. induction kws as [|kw kws IH]; intros s H; simpl; [done|].
  by apply IH, round_length.
Qed.

Lemma add_words_length xs ys :
  length xs = length ys -> length (Sha256.add_words xs ys) = length xs.
Proof.
  revert ys. induction xs as [|x xs IH]; intros [|y ys] H; simpl in *; try done.
  f_equal. apply IH. lia.
Qed.

Lemma compress_length H block :
  length H = 8%nat -> length (Sha256.compress H block) = 8%nat.
Proof.
  intros E. unfold Sha256.compress.
  rewrite add_words_length; [done|]. by rewrite rounds_length.
Qed.

Lemma absorb_chain_length st b :
  length (Sha256.chain st) = 8%nat ->
  length (Sha256.chain (Sha256.absorb st b)) = 8%nat.
Proof.
  intros E. unfold Sha256.absorb.
  destruct (_ =? _)%nat; simpl; [by apply compress_length | done].
Qed.

Lemma absorb_all_chain_length bs st :
  length (Sha256.chain st) = 8%nat ->
  length (Sha256.chain (fold_left Sha256.absorb bs st)) = 8%nat.
Proof.
  revert st. induction bs as [|b bs IH]; intros st E; simpl; [done|].
  by apply IH, absorb_chain_length.
Qed.

Lemma be32_words_length ws : length (flat_map Sha256.be32 ws) = (4 * length ws)%nat.
Proof. induction ws as [|w ws IH]; simpl; [done|]. rewrite IH. lia. Qed.

Lemma sha256_hex_length message : String.length (Sha256.sha256_hex message) = 64%nat.
Proof.
  unfold Sha256.sha256_hex, Sha256.hexdigest, Sha256.digest, Sha256.update.
  rewrite hex_length, be32_words_length.
  rewrite absorb_all_chain_length; [reflexivity|].
  apply absorb_all_chain_length. reflexivity.
Qed.

(** C7.  For every file, hashing its bytes in chunks of 64 KiB gives the
    SHA-256 of the whole content computed in one call, as 64 lowercase
    hexadecimal digits; equal contents give equal digests; and the digest of
    the empty file is the SHA-256 of the empty input. *)
Theorem C7_hash_file_sha256_is_sha256 :
  (forall file : list byte,
      _hash_file_sha256 file = Sha256.sha256_hex file
      /\ String.length (_hash_file_sha256 file) = 64%nat
      /\ PyStr.forallb is_lower_hex (_hash_file_sha256 file) = true)
  /\ (forall file file' : list byte,
        file = file' -> _hash_file_sha256 file = _hash_file_sha256 file')
  /\ _hash_file_sha256 []
     = "e3b0c44298fc1c149afbf4c8996fb92427ae41e4649b934ca495991b7852b855".
Proof.
  assert (E : forall file, _hash_file_sha256 file = Sha256.sha256_hex file).
  { intros file. unfold _hash_file_sha256, Sha256.sha256_hex.
    by rewrite hash_loop_update. }
  split; [|split].
  - intros file. rewrite E. split; [done|]. split; [apply sha256_hex_length|].
    apply hex_lower.
  - by intros file file' ->.
  - rewrite E. vm_compute. reflexivity.
Qed.

Lemma C7_witness :
  _hash_file_sha256 (list_byte_of_string "abc")
  = _hash_file_sha256 [x61; x62; x63].
Proof.
  apply (proj1 (proj2 C7_hash_file_sha256_is_sha256)). reflexivity.
Defined.

(** ** Reconciliation driver *)

Lemma quiet_ret {A} (a : A) : quiet (ret a).
Proof. done. Qed.

Lemma quiet_raise {A} e : quiet (@raise A e).
Proof. done. Qed.

Lemma quiet_lift {A} (r : result A) : quiet (lift r).
Proof. done. Qed.

Lemma quiet_bind {A B} (m : M A) (k : A -> M B) :
  quiet m -> (forall a, quiet (k a)) -> quiet (bind m k).
Proof.
  unfold quiet. destruct m as [evs [a|e]]; simpl; intros Hm Hk; [|done].
  by rewrite calls_app, Hm, Hk.
Qed.

Lemma quiet_get_from_mcf mcf dot_keys : quiet (_get_from_mcf mcf dot_keys).
Proof. apply get_from_mcf_calls. Qed.

Create HintDb quiet.
#[local] Hint Resolve quiet_ret quiet_raise quiet_lift quiet_get_from_mcf : quiet.

Ltac quiet_steps :=
  repeat first
    [ solve [auto with quiet]
    | apply quiet_bind; [| intros ?]
    | match goal with |- quiet (if ?b then _ else _) => destruct b end
    | match goal with |- quiet (match ?l with [] => _ | _ => _ end) => destruct l end
    | done ].

Lemma quiet_validate_license mcf licenses : quiet (validate_license mcf licenses).
Proof. unfold validate_license. quiet_steps. Qed.

Lemma quiet_create_tags_dicts mcf : quiet (_create_tags_dicts mcf).
Proof. unfold _create_tags_dicts. quiet_steps. Qed.

Lemma quiet_get_wgs84_bbox mcf : quiet (_get_wgs84_bbox mcf).
Proof.
  unfold _get_wgs84_bbox. quiet_steps.
Qed.

#[local] Hint Resolve quiet_validate_license quiet_create_tags_dicts
  quiet_get_wgs84_bbox : quiet.

Lemma create_shape_bind {A} catalog (m : M A) (k : A -> M package) :
  quiet m -> (forall a, create_shape catalog (k a)) ->
  create_shape catalog (bind m k).
Proof.
  unfold quiet, create_shape. destruct m as [evs [a|e]]; simpl; intros Hm Hk.
  - rewrite calls_app, Hm. apply Hk.
  - left. eauto.
Qed.

Lemma create_package_shape catalog mcf title name :
  create_shape catalog (create_package catalog mcf title name).
Proof.
  unfold create_package.
  repeat (apply create_shape_bind; [solve [quiet_steps] | intros ?]).
  right. eexists. split; reflexivity.
Qed.

Lemma attaches_nil catalog : attaches_iff_no_resource catalog [].
Proof.
  split_and!; simpl; [lia | lia |].
  split; [intros [? []] | intros (? & [=] & _)].
Qed.

Lemma attaches_cons_other catalog c cs :
  is_package_create c = false -> is_resource_create c = false ->
  is_package_show c = false ->
  attaches_iff_no_resource catalog cs -> attaches_iff_no_resource catalog (c :: cs).
Proof.
  intros H1 H2 H3 (Hc & Hr & Hiff). unfold attaches_iff_no_resource.
  assert (dataset_record catalog (c :: cs) = dataset_record catalog cs) as ->
    by (by destruct c).
  simpl. rewrite H1, H2. split_and!; [done | done |].
  rewrite <- Hiff. split.
  - intros [f [->|?]]; [discriminate H2 | eauto].
  - intros [f ?]; eauto.
Qed.

Lemma calls_cons ev evs :
  calls (ev :: evs)
  = match ev with Action c => c :: calls evs | _ => calls evs end.
Proof. by destruct ev. Qed.

Lemma calls_nil : calls [] = [].
Proof. done. Qed.

#[local] Arguments calls : simpl never.

Ltac norm_calls :=
  repeat (rewrite ?calls_app, ?calls_cons, ?calls_nil; simpl).

Ltac attaches_here Eshow Ecreate :=
  norm_calls; unfold attaches_iff_no_resource, dataset_record; simpl;
  rewrite ?Eshow; simpl; rewrite ?Ecreate; simpl;
  split; [lia | split; [lia |]];
  split;
  [ intros [? Hin]; simpl in Hin;
    repeat (destruct Hin as [Hin|Hin]; try discriminate Hin);
    first [ done | eexists; split; [reflexivity | done] ]
  | intros (? & Hrec & Hres);
    first [ discriminate Hrec
          | injection Hrec as <-; first [ congruence | eexists; simpl; eauto ] ] ].

Lemma reconcile_attaches env catalog mcf title name :
  attaches_iff_no_resource catalog
    (calls (reconcile env catalog mcf title name).1).
Proof.
  pose proof (create_package_shape catalog mcf title name) as Hs.
  unfold reconcile, lookup_or_create.
  destruct (create_package catalog mcf title name) as [cevs cr].
  unfold create_shape in Hs. simpl in Hs. unfold action, attach_resource. simpl.
  destruct (package_show catalog name) as [p|e] eqn:Eshow; simpl.
  - destruct (pkg_resources p) as [|r rs] eqn:Er; simpl.
    + destruct (resource_create catalog _) as [v|[]]; simpl;
        attaches_here Eshow Eshow.
    + attaches_here Eshow Eshow.
  - destruct e; simpl; try (attaches_here Eshow Eshow).
    destruct Hs as [[Hc [e' ->]]|(fields & Hc & ->)]; simpl in *.
    + destruct e'; simpl; norm_calls; rewrite ?Hc; attaches_here Eshow Eshow.
    + destruct (package_create catalog fields) as [p|e'] eqn:Ecreate; simpl.
      * destruct (pkg_resources p) as [|r rs] eqn:Er; simpl.
        -- destruct (resource_create catalog _) as [v|[]]; simpl;
             norm_calls; rewrite ?Hc; attaches_here Eshow Ecreate.
        -- norm_calls; rewrite ?Hc. attaches_here Eshow Ecreate.
      * destruct e'; simpl; norm_calls; rewrite ?Hc; attaches_here Eshow Ecreate.
Qed.

#[local] Arguments _get_from_mcf : simpl never.
#[local] Arguments validate_license : simpl never.
#[local] Arguments reconcile : simpl never.

Lemma calls_prelude env orgs licenses :
  calls (prelude_events env orgs licenses)
  = [OrganizationList "natcap"; LicenseList].
Proof.
  unfold prelude_events. norm_calls. by rewrite quiet_validate_license.
Qed.

Lemma main_license_failure env catalog orgs licenses e :
  organization_list catalog "natcap" = Ok orgs ->
  license_list catalog = Ok licenses ->
  (validate_license (yaml_load env) licenses).2 = Raise e ->
  main env catalog = (prelude_events env orgs licenses, Raise e).
Proof.
  intros Horg Hlic Hv. unfold main, prelude_events, action.
  rewrite Horg, Hlic. cbn.
  destruct (validate_license _ _) as [evs r]. cbn in Hv. subst r. done.
Qed.

Lemma main_reaches_reconcile env catalog orgs licenses title name :
  organization_list catalog "natcap" = Ok orgs ->
  license_list catalog = Ok licenses ->
  (validate_license (yaml_load env) licenses).2 = Ok tt ->
  (_get_from_mcf (yaml_load env) "identification.title").2 = Ok title ->
  (_get_from_mcf (yaml_load env) "metadata.identifier").2 = Ok name ->
  main env catalog
  = (prelude_events env orgs licenses
     ++ (_get_from_mcf (yaml_load env) "identification.title").1
     ++ (_get_from_mcf (yaml_load env) "metadata.identifier").1
     ++ (reconcile env catalog (yaml_load env) title name).1,
     (reconcile env catalog (yaml_load env) title name).2).
Proof.
  intros Horg Hlic Hv Ht Hn. unfold main, prelude_events, action.
  rewrite Horg, Hlic. cbn.
  destruct (validate_license _ _) as [evs r]. cbn in Hv. subst r. cbn.
  destruct (_get_from_mcf _ "identification.title") as [evt rt].
  cbn in Ht. subst rt. cbn.
  destruct (_get_from_mcf _ "metadata.identifier") as [evn rn].
  cbn in Hn. subst rn. cbn.
  by rewrite <- ?app_assoc.
Qed.

(** The calls of a run: the two listings, then those of the outer [try]
    when the run gets there. *)
Lemma main_calls env catalog :
  calls (main env catalog).1 = [OrganizationList "natcap"]
  \/ calls (main env catalog).1 = [OrganizationList "natcap"; LicenseList]
  \/ exists title name,
       calls (main env catalog).1
       = [OrganizationList "natcap"; LicenseList]
         ++ calls (reconcile env catalog (yaml_load env) title name).1.
Proof.
  destruct (organization_list catalog "natcap") as [orgs|e] eqn:Horg.
  2: { left. unfold main, action. rewrite Horg. done. }
  destruct (license_list catalog) as [licenses|e] eqn:Hlic.
  2: { right; left. unfold main, action. rewrite Horg, Hlic. done. }
  destruct (validate_license (yaml_load env) licenses).2 as [[]|e] eqn:Hv.
  2: { right; left. rewrite (main_license_failure _ _ _ _ _ Horg Hlic Hv).
       apply calls_prelude. }
  pose proof (quiet_get_from_mcf (yaml_load env) "identification.title") as Hqt.
  pose proof (quiet_get_from_mcf (yaml_load env) "metadata.identifier") as Hqn.
  unfold quiet in Hqt, Hqn.
  destruct (_get_from_mcf (yaml_load env) "identification.title").2
    as [title|e] eqn:Ht.
  2: { right; left. unfold main, action. rewrite Horg, Hlic. cbn.
       pose proof (quiet_validate_license (yaml_load env) licenses) as Hqv.
       unfold quiet in Hqv.
       destruct (validate_license _ _) as [evs r]. cbn in Hv, Hqv. subst r. cbn.
       destruct (_get_from_mcf _ "identification.title") as [evt rt].
       cbn in Ht, Hqt. subst rt. cbn. norm_calls. by rewrite Hqv, Hqt. }
  destruct (_get_from_mcf (yaml_load env) "metadata.identifier").2
    as [name|e] eqn:Hn.
  2: { right; left. unfold main, action. rewrite Horg, Hlic. cbn.
       pose proof (quiet_validate_license (yaml_load env) licenses) as Hqv.
       unfold quiet in Hqv.
       destruct (validate_license _ _) as [evs r]. cbn in Hv, Hqv. subst r. cbn.
       destruct (_get_from_mcf _ "identification.title") as [evt rt].
       cbn in Ht, Hqt. subst rt. cbn.
       destruct (_get_from_mcf _ "metadata.identifier") as [evn rn].
       cbn in Hn, Hqn. subst rn. cbn. norm_calls. by rewrite Hqv, Hqt, Hqn. }
  right; right. exists title, name.
  rewrite (main_reaches_reconcile _ _ _ _ _ _ Horg Hlic Hv Ht Hn). cbn [fst].
  rewrite !calls_app, calls_prelude, Hqt, Hqn. done.
Qed.

Lemma tags_of_keywords mcf keywords :
  nested mcf ["identification"; "keywords"]%list = Some (VList keywords) ->
  (_create_tags_dicts mcf).2
  = Ok (map (fun name => VDict [("name", name)]) keywords).
Proof.
  intros H. unfold _create_tags_dicts.
  by rewrite (get_from_mcf_present mcf "identification.keywords" _ H).
Qed.

(** C2.  In every run at most one dataset is created and at most one
    resource attached, and a create-resource call is issued if and only if
    the dataset record the run obtained (found by [package_show] or just
    made by [package_create]) has an empty resource list.  The tags of a
    created dataset are one [{"name": k}] per listed keyword.  Scenario A:
    the identifier is not in the catalog; the calls are the two listings,
    the lookup, one [package_create] whose tags are
    [[{"name": "water"}, {"name": "soil"}]], then one [resource_create].
    Scenario B: the identifier is there with one resource; after the lookup
    nothing is created and nothing attached. *)
Theorem C2_resource_attached_iff_record_has_none :
  (forall env catalog,
      let cs := calls (main env catalog).1 in
      (length (List.filter is_package_create cs) <= 1)%nat
      /\ (length (List.filter is_resource_create cs) <= 1)%nat
      /\ ((exists fields, In (ResourceCreate fields) cs)
          <-> (exists pkg_dict, dataset_record catalog cs = Some pkg_dict
                                /\ pkg_resources pkg_dict = [])))
  /\ (forall mcf keywords,
        nested mcf ["identification"; "keywords"]%list = Some (VList keywords) ->
        (_create_tags_dicts mcf).2
        = Ok (map (fun name => VDict [("name", name)]) keywords))
  /\ (exists fields resource,
        calls scenario_A.1
        = [OrganizationList "natcap"; LicenseList; PackageShow (VStr "my-dataset");
           PackageCreate fields; ResourceCreate resource]
        /\ pc_name fields = VStr "my-dataset"
        /\ pc_tags fields
           = [VDict [("name", VStr "water")]; VDict [("name", VStr "soil")]]
        /\ scenario_A.2 = Ok tt)
  /\ (calls scenario_B.1
      = [OrganizationList "natcap"; LicenseList; PackageShow (VStr "my-dataset")]
      /\ scenario_B.2 = Ok tt).
Proof.
  split; [|split; [exact tags_of_keywords | split]].
  - intros env catalog cs.
    change (attaches_iff_no_resource catalog cs). subst cs.
    destruct (main_calls env catalog) as [->|[->|(title & name & ->)]].
    + apply attaches_cons_other; [done..|]. apply attaches_nil.
    + do 2 (apply attaches_cons_other; [done..|]). apply attaches_nil.
    + simpl. do 2 (apply attaches_cons_other; [done..|]).
      apply reconcile_attaches.
  - vm_compute. do 2 eexists. split_and!; reflexivity.
  - vm_compute. split; reflexivity.
Qed.

Lemma C2_witness :
  (_create_tags_dicts (mcf_with_license [])).2
  = Ok [VDict [("name", VStr "water")]; VDict [("name", VStr "soil")]].
Proof.
  apply (proj1 (proj2 C2_resource_attached_iff_record_has_none)
           (mcf_with_license []) [VStr "water"; VStr "soil"]).
  reflexivity.
Defined.

(** C3.  When the document declares a license (the value at
    [identification.license] is truthy), [_find_license] runs on its [name]
    and [url], and what it raises the license check raises.  The check comes
    before the dataset lookup: in every run in which it raises, [main]
    raises the same exception and the only catalog calls made are the two
    listings, so no [package_show], no [package_create] and no
    [resource_create] call is issued. *)
Theorem C3_license_failure_leaves_catalog_untouched :
  (forall mcf licenses declared license_string license_url e,
      (_get_from_mcf mcf "identification.license").2 = Ok declared ->
      truthy declared = true ->
      (_get_from_mcf mcf "identification.license.name").2 = Ok license_string ->
      (_get_from_mcf mcf "identification.license.url").2 = Ok license_url ->
      _find_license license_string license_url licenses = Raise e ->
      (validate_license mcf licenses).2 = Raise e)
  /\ (forall env catalog orgs licenses e,
        organization_list catalog "natcap" = Ok orgs ->
        license_list catalog = Ok licenses ->
        (validate_license (yaml_load env) licenses).2 = Raise e ->
        (main env catalog).2 = Raise e
        /\ calls (main env catalog).1 = [OrganizationList "natcap"; LicenseList]).
Proof.
  split.
  - intros mcf licenses declared license_string license_url e Hd Ht Hn Hu Hf.
    unfold validate_license.
    destruct (_get_from_mcf mcf "identification.license") as [ev0 r0].
    cbn in Hd. subst r0. cbn. rewrite Ht.
    destruct (_get_from_mcf mcf "identification.license.name") as [ev1 r1].
    cbn in Hn. subst r1. cbn.
    destruct (_get_from_mcf mcf "identification.license.url") as [ev2 r2].
    cbn in Hu. subst r2. cbn. by rewrite Hf.
  - intros env catalog orgs licenses e Horg Hlic Hv.
    rewrite (main_license_failure _ _ _ _ _ Horg Hlic Hv). cbn [fst snd].
    split; [done | apply calls_prelude].
Qed.

Lemma C3_witness :
  (main (env_with mcf_unresolved_license) (catalog_with ∅)).2
  = Raise (KeyError (VStr "/"))
  /\ calls (main (env_with mcf_unresolved_license) (catalog_with ∅)).1
     = [OrganizationList "natcap"; LicenseList].
Proof.
  apply (proj2 C3_license_failure_leaves_catalog_untouched
           (env_with mcf_unresolved_license) (catalog_with ∅)
           (VList [VStr "natcap"]) [cc_by]); [reflexivity | reflexivity |].
  apply (proj1 C3_license_failure_leaves_catalog_untouched
           mcf_unresolved_license [cc_by]
           (VDict [("name", VStr "CC-BY 4.0"); ("url", VStr "")])
           (VStr "CC-BY 4.0") (VStr "")); reflexivity.
Defined.

(** C4, as the claim states it, fails: a lookup that raises
    [AttributeError], which is not [NotFound], does not propagate.  The
    outer handler catches it, prints the operations of the client, and the
    run ends normally. *)
Lemma C4_counterexample :
  package_show (catalog_failing_lookup AttributeError) (VStr "my-dataset")
  = Raise AttributeError
  /\ AttributeError <> NotFound
  /\ (main (env_with (mcf_with_license [])) (catalog_failing_lookup AttributeError)).2
     = Ok tt
  /\ calls (main (env_with (mcf_with_license []))
                 (catalog_failing_lookup AttributeError)).1
     = [OrganizationList "natcap"; LicenseList; PackageShow (VStr "my-dataset")].
Proof. split_and!; [reflexivity | discriminate | vm_compute; reflexivity..]. Qed.

(** C4, amended.  In a run that reaches the dataset lookup, when
    [package_show] raises [e]:
    - [e = NotFound]: the inner [try] continues with the CREATE branch and
      ends as that branch does;
    - [e = AttributeError]: the outer handler catches it; the run prints the
      operations of the client and ends normally, without any create call;
    - any other [e]: [main] raises [e], without any create call. *)
Theorem C4_lookup_failure_boundary :
  forall env catalog orgs licenses title name e,
    organization_list catalog "natcap" = Ok orgs ->
    license_list catalog = Ok licenses ->
    (validate_license (yaml_load env) licenses).2 = Ok tt ->
    (_get_from_mcf (yaml_load env) "identification.title").2 = Ok title ->
    (_get_from_mcf (yaml_load env) "metadata.identifier").2 = Ok name ->
    package_show catalog name = Raise e ->
    (e = NotFound ->
       lookup_or_create catalog (yaml_load env) title name
       = ([Info (CheckingPackage name); Action (PackageShow name)]
          ++ (create_package catalog (yaml_load env) title name).1,
          (create_package catalog (yaml_load env) title name).2))
    /\ (e = AttributeError ->
          (main env catalog).2 = Ok tt
          /\ last (main env catalog).1 = Some (Stdout DirCatalogAction)
          /\ calls (main env catalog).1
             = [OrganizationList "natcap"; LicenseList; PackageShow name])
    /\ (e <> NotFound -> e <> AttributeError ->
          (main env catalog).2 = Raise e
          /\ calls (main env catalog).1
             = [OrganizationList "natcap"; LicenseList; PackageShow name]).
Proof.
  intros env catalog orgs licenses title name e Horg Hlic Hv Ht Hn Hshow.
  rewrite (main_reaches_reconcile _ _ _ _ _ _ Horg Hlic Hv Ht Hn).
  cbn [fst snd]. rewrite !calls_app, calls_prelude.
  rewrite (quiet_get_from_mcf _ "identification.title").
  rewrite (quiet_get_from_mcf _ "metadata.identifier").
  split; [|split].
  - intros ->. unfold lookup_or_create, action. rewrite Hshow. reflexivity.
  - intros ->.
    assert (reconcile env catalog (yaml_load env) title name
            = ([Info (CheckingPackage name); Action (PackageShow name)]
               ++ [Stdout DirCatalogAction], Ok tt)) as ->
      by (unfold reconcile, lookup_or_create, action; by rewrite Hshow).
    cbn [fst snd]. split_and!; [reflexivity | | reflexivity].
    rewrite !app_assoc. apply last_snoc.
  - intros H1 H2.
    assert (reconcile env catalog (yaml_load env) title name
            = ([Info (CheckingPackage name); Action (PackageShow name)], Raise e))
      as -> by (unfold reconcile, lookup_or_create, action; rewrite Hshow;
                by destruct e).
    done.
Qed.

Lemma C4_witness :
  (main (env_with (mcf_with_license []))
        (catalog_failing_lookup (CKANAPIError "Internal Server Error"))).2
  = Raise (CKANAPIError "Internal Server Error")
  /\ calls (main (env_with (mcf_with_license []))
                 (catalog_failing_lookup (CKANAPIError "Internal Server Error"))).1
     = [OrganizationList "natcap"; LicenseList; PackageShow (VStr "my-dataset")].
Proof.
  apply (proj2 (proj2
    (C4_lookup_failure_boundary
       (env_with (mcf_with_license []))
       (catalog_failing_lookup (CKANAPIError "Internal Server Error"))
       (VList [VStr "natcap"]) [cc_by] (VStr "My dataset") (VStr "my-dataset")
       (CKANAPIError "Internal Server Error")
       eq_refl eq_refl eq_refl eq_refl eq_refl eq_refl)));
    discriminate.
Defined.

(** * Further properties *)

(** ** License resolver *)

(** X1.  The sanitized form of a license name is stable: sanitizing it
    again changes nothing, it holds no space and none of the ASCII lowercase
    letters [a] to [z] (character codes 97 to 122), and it neither starts
    nor ends with whitespace. *)
Theorem X1_sanitize_is_a_normal_form :
  forall s : string,
    sanitize (sanitize s) = sanitize s
    /\ PyStr.forallb
         (fun c => negb (Ascii.eqb c " ")
                   && negb ((97 <=? N_of_ascii c) && (N_of_ascii c <=? 122))%N)
         (sanitize s) = true
    /\ PyStr.head_ok (sanitize s) = true
    /\ PyStr.last_ok (sanitize s) = true.
Proof.
  intros s. split; [apply sanitize_idempotent|].
  split; [exact (sanitize_clean s)|].
  rewrite sanitize_as_map. split.
  - apply PyStrFacts.map_head_ok;
      [apply PyStrFacts.sanitize_char_isspace | apply PyStrFacts.strip_head_ok].
  - apply PyStrFacts.map_last_ok;
      [apply PyStrFacts.sanitize_char_isspace | apply PyStrFacts.strip_last_ok].
Qed.

Lemma upper_char_isspace c : PyStr.isspace (PyStr.upper_char c) = PyStr.isspace c.
Proof. destruct c as [[] [] [] [] [] [] [] []]; reflexivity. Qed.

Lemma sanitize_char_upper c :
  PyStr.sanitize_char (PyStr.upper_char c) = PyStr.sanitize_char c.
Proof. destruct c as [[] [] [] [] [] [] [] []]; reflexivity. Qed.

Lemma lstrip_map f s :
  (forall c, PyStr.isspace (f c) = PyStr.isspace c) ->
  PyStr.lstrip (PyStr.map f s) = PyStr.map f (PyStr.lstrip s).
Proof.
  intros Hf. induction s as [|c s IH]; simpl; [done|].
  rewrite Hf. by destruct (PyStr.isspace c).
Qed.

Lemma rstrip_map f s :
  (forall c, PyStr.isspace (f c) = PyStr.isspace c) ->
  PyStr.rstrip (PyStr.map f s) = PyStr.map f (PyStr.rstrip s).
Proof.
  intros Hf. induction s as [|c s IH]; simpl; [done|].
  rewrite IH, Hf. destruct (PyStr.rstrip s); simpl; [|done].
  by destruct (PyStr.isspace c).
Qed.

(** X2.  The sanitized key does not depend on the case of the query:
    upper-casing a license name before it is sanitized gives the same
    key. *)
Theorem X2_sanitize_ignores_case :
  forall s : string, sanitize (PyStr.upper s) = sanitize s.
Proof.
  intros s. rewrite !sanitize_as_map. unfold PyStr.upper, PyStr.strip.
  rewrite lstrip_map, rstrip_map by apply upper_char_isspace.
  rewrite PyStrFacts.map_map. apply PyStrFacts.map_ext, sanitize_char_upper.
Qed.

Lemma normalize_url_with_slash u :
  PyStr.endswith_char u "/" = false ->
  normalize_url (u +:+ "/") = normalize_url u.
Proof.
  intros H. unfold normalize_url at 2. rewrite H.
  unfold normalize_url. by rewrite PyStrFacts.endswith_app_char.
Qed.

(** X3.  [_find_license] does not look at the license name, and one final
    slash on the queried URL is optional: a URL without a final slash and
    the same URL with one, under any two names, get the same answer. *)
Theorem X3_find_license_ignores_name_and_final_slash :
  forall (s s' u : string) (known : list license),
    PyStr.endswith_char u "/" = false ->
    _find_license (VStr s) (VStr (u +:+ "/")) known
    = _find_license (VStr s') (VStr u) known.
Proof.
  intros s s' u known H.
  by rewrite !find_license_by_url, normalize_url_with_slash.
Qed.

Lemma X3_witness :
  _find_license (VStr "CC-BY 4.0")
                (VStr ("https://creativecommons.org/licenses/by/4.0" +:+ "/"))
                [cc_by]
  = _find_license (VStr "") (VStr "https://creativecommons.org/licenses/by/4.0")
                  [cc_by].
Proof.
  apply (X3_find_license_ignores_name_and_final_slash
           "CC-BY 4.0" "" "https://creativecommons.org/licenses/by/4.0" [cc_by]).
  reflexivity.
Defined.

Lemma license_indices_app pre post :
  license_indices (pre ++ post)
  = fold_left add_license post (license_indices pre).
Proof. unfold license_indices. apply fold_left_app. Qed.

(** X4.  A known license whose [url] ends with a slash is found by that
    URL, under any name, when no later entry of the list has the same
    [url]: of several entries with one [url] the last wins. *)
Theorem X4_url_resolves_to_last_entry :
  forall (pre post : list license) (M : license) (s : string),
    PyStr.endswith_char (lic_url M) "/" = true ->
    (forall N, In N post -> lic_url N <> lic_url M) ->
    _find_license (VStr s) (VStr (lic_url M)) (pre ++ M :: post) = Ok (lic_id M).
Proof.
  intros pre post M s Hs Hpost. rewrite find_license_by_url.
  unfold normalize_url. rewrite Hs.
  unfold url_lookup, getitem, url_to_licenseid.
  rewrite license_indices_app. simpl.
  rewrite url_index_None
    by (intros N HN; apply Hpost; by rewrite <- list_elem_of_In).
  by rewrite add_license_url, decide_True.
Qed.

Lemma X4_witness :
  _find_license (VStr "anything") (VStr (lic_url cc_by)) ([cc_by_sa] ++ cc_by :: [])
  = Ok "CC-BY-4.0".
Proof.
  apply (X4_url_resolves_to_last_entry [cc_by_sa] [] cc_by "anything").
  - reflexivity.
  - intros N [].
Defined.

(** X5.  In the title index the title and every legacy id of an entry lead
    to the [id] of that entry, unless a later entry of the list has the same
    key: of several entries with one key the last wins. *)
Theorem X5_title_index_maps_keys_to_last_entry :
  forall (pre post : list license) (M : license) (k : string),
    In k (title_keys M) ->
    (forall N, In N post -> ~ In k (title_keys N)) ->
    string_to_licenseid (pre ++ M :: post) !! k = Some (lic_id M).
Proof.
  intros pre post M k Hk Hpost. unfold string_to_licenseid.
  rewrite license_indices_app. simpl.
  rewrite title_index_None.
  - rewrite add_license_title, decide_True; [done|]. by apply list_elem_of_In.
  - intros N HN. rewrite list_elem_of_In. apply Hpost. by apply list_elem_of_In.
Qed.

Lemma X5_witness :
  string_to_licenseid ([cc_by] ++ cc_by_sa :: []) !! "cc by sa" = Some "cc-by-sa".
Proof.
  apply (X5_title_index_maps_keys_to_last_entry [cc_by] [] cc_by_sa "cc by sa").
  - simpl. auto.
  - intros N [].
Defined.

(** ** Field extractor *)

(** What [walk] returns or raises does not depend on the text of the dotted
    path, which only goes into the warning. *)
Lemma walk_result_independent dot_keys dot_keys' v keys :
  (walk dot_keys v keys).2 = (walk dot_keys' v keys).2.
Proof.
  revert v. induction keys as [|key keys IH]; intros v; simpl; [done|].
  destruct (subscript v key) as [y|[]]; try done.
  destruct keys; [done | apply IH].
Qed.

Lemma walk_outcomes dot_keys v keys :
  keys <> [] ->
  (exists x, nested v keys = Some x /\ walk dot_keys v keys = ([], Ok x))
  \/ (exists key, missing_segment v keys = Some key
                  /\ walk dot_keys v keys
                     = ([Warning (missing_warning dot_keys key)], Ok (VStr "")))
  \/ (nested v keys = None /\ missing_segment v keys = None
      /\ walk dot_keys v keys = ([], Raise TypeError)).
Proof.
  revert v. induction keys as [|key keys IH]; intros v Hne; [done|].
  destruct v as [| | | | | |d];
    try (right; right; split_and!; reflexivity).
  simpl. destruct (assoc key d) as [y|] eqn:E.
  - destruct keys as [|key' keys'].
    + left. exists y. done.
    + apply IH. done.
  - right; left. exists key. done.
Qed.

(** X6.  [_get_from_mcf] has three outcomes and no other: it returns the
    nested value, without a warning; or it returns the empty string with one
    warning, because the mapping reached lacks a segment; or it raises
    [TypeError] without a warning, because a segment is asked of a value
    that is not a mapping.  It never raises [KeyError], and [popleft] never
    meets an empty deque ([IndexError]). *)
Theorem X6_get_from_mcf_outcomes :
  forall (mcf : value) (dot_keys : string),
    let keys := PyStr.split_char "." dot_keys in
    let run := _get_from_mcf mcf dot_keys in
    (exists v, nested mcf keys = Some v
               /\ run = ([Stdout (LookingFor dot_keys)], Ok v))
    \/ (exists key, missing_segment mcf keys = Some key
                    /\ run = ([Stdout (LookingFor dot_keys);
                               Warning (missing_warning dot_keys key)],
                              Ok (VStr "")))
    \/ (nested mcf keys = None /\ missing_segment mcf keys = None
        /\ run = ([Stdout (LookingFor dot_keys)], Raise TypeError)).
Proof.
  intros mcf dot_keys keys run. subst run. unfold _get_from_mcf.
  destruct (walk_outcomes dot_keys mcf keys (split_char_nonempty _ _))
    as [(x & Hx & E)|[(key & Hk & E)|(H1 & H2 & E)]]; fold keys; rewrite E.
  - left. by exists x.
  - right; left. by exists key.
  - right; right. done.
Qed.

Lemma split_char_app c p q :
  PyStr.split_char c (p +:+ String c q)
  = PyStr.split_char c p ++ PyStr.split_char c q.
Proof.
  induction p as [|a p IH]; simpl.
  - by rewrite Ascii.eqb_refl.
  - change (String a p +:+ String c q) with (String a (p +:+ String c q)).
    simpl. rewrite IH. destruct (Ascii.eqb a c); [done|].
    pose proof (split_char_nonempty c p) as Hne.
    destruct (PyStr.split_char c p); done.
Qed.

Lemma walk_descends dot_keys v prefix rest x :
  nested v prefix = Some x -> rest <> [] ->
  walk dot_keys v (prefix ++ rest) = walk dot_keys x rest.
Proof.
  revert v. induction prefix as [|k prefix IH]; intros v H Hr; simpl in *.
  - by injection H as ->.
  - destruct v as [| | | | | |d]; try discriminate H.
    simpl. destruct (assoc k d) as [y|]; [|discriminate H].
    destruct (prefix ++ rest) eqn:E.
    + by destruct prefix, rest.
    + by apply IH.
Qed.

(** X7.  Dotted paths compose: when the path [p] leads to the value [v],
    asking the document for [p.q] gives what asking [v] for [q] gives (the
    same value, the same empty string or the same exception). *)
Theorem X7_get_from_mcf_composes :
  forall (mcf v : value) (p q : string),
    nested mcf (PyStr.split_char "." p) = Some v ->
    (_get_from_mcf mcf (p +:+ "." +:+ q)).2 = (_get_from_mcf v q).2.
Proof.
  intros mcf v p q H. unfold _get_from_mcf.
  change ("." +:+ q) with (String "." q).
  rewrite split_char_app.
  rewrite (walk_descends _ _ _ _ _ H (split_char_nonempty _ _)).
  simpl.
  pose proof (walk_result_independent (p +:+ String "." q) q v
                (PyStr.split_char "." q)) as E.
  destruct (walk (p +:+ String "." q) v _) as [evs r].
  destruct (walk q v _) as [evs' r']. simpl in *. subst r'. by destruct r.
Qed.

Lemma X7_witness :
  (_get_from_mcf sample_mcf ("identification.extents" +:+ "." +:+ "spatial")).2
  = (_get_from_mcf
       (VDict [("spatial",
                 VList [VDict [("bbox", VList [VInt 10; VInt 20; VInt 30; VInt 40]);
                               ("crs", VInt 4326)]])])
       "spatial").2.
Proof.
  apply (X7_get_from_mcf_composes sample_mcf _ "identification.extents" "spatial").
  reflexivity.
Defined.

Lemma get_from_mcf_missing mcf dot_keys key :
  missing_segment mcf (PyStr.split_char "." dot_keys) = Some key ->
  _get_from_mcf mcf dot_keys
  = ([Stdout (LookingFor dot_keys); Warning (missing_warning dot_keys key)],
     Ok (VStr "")).
Proof. intros H. unfold _get_from_mcf. by rewrite (walk_missing dot_keys _ _ _ H). Qed.

(** X8.  A document without keywords gets an empty tag list, not an error:
    the empty string the extractor returns for the missing path is iterated
    as a string of no characters.  Keywords given as one string give one tag
    per character, and a value that cannot be iterated raises
    [TypeError]. *)
Theorem X8_tags_of_missing_or_odd_keywords :
  forall mcf : value,
    (forall key,
        missing_segment mcf ["identification"; "keywords"]%list = Some key ->
        (_create_tags_dicts mcf).2 = Ok []
        /\ warnings (_create_tags_dicts mcf).1
           = [missing_warning "identification.keywords" key])
    /\ (forall s,
          nested mcf ["identification"; "keywords"]%list = Some (VStr s) ->
          (_create_tags_dicts mcf).2
          = Ok (map (fun name => VDict [("name", name)]) (chars s)))
    /\ (forall v,
          nested mcf ["identification"; "keywords"]%list = Some v ->
          iterate v = Raise TypeError ->
          (_create_tags_dicts mcf).2 = Raise TypeError).
Proof.
  intros mcf. unfold _create_tags_dicts. split; [|split].
  - intros key H.
    by rewrite (get_from_mcf_missing mcf "identification.keywords" key H).
  - intros s H.
    by rewrite (get_from_mcf_present mcf "identification.keywords" _ H).
  - intros v H Hi.
    rewrite (get_from_mcf_present mcf "identification.keywords" _ H).
    simpl. by rewrite Hi.
Qed.

Lemma X8_witness :
  ((_create_tags_dicts (VDict [("identification", VDict [])])).2 = Ok []
   /\ warnings (_create_tags_dicts (VDict [("identification", VDict [])])).1
      = [missing_warning "identification.keywords" "keywords"])
  /\ (_create_tags_dicts
        (VDict [("identification", VDict [("keywords", VStr "soil")])])).2
     = Ok [VDict [("name", VStr "s")]; VDict [("name", VStr "o")];
           VDict [("name", VStr "i")]; VDict [("name", VStr "l")]]
  /\ (_create_tags_dicts
        (VDict [("identification", VDict [("keywords", VInt 7)])])).2
     = Raise TypeError.
Proof.
  split; [|split].
  - apply (proj1 (X8_tags_of_missing_or_odd_keywords
                    (VDict [("identification", VDict [])])) "keywords").
    reflexivity.
  - apply (proj1 (proj2 (X8_tags_of_missing_or_odd_keywords
             (VDict [("identification", VDict [("keywords", VStr "soil")])])))
             "soil").
    reflexivity.
  - apply (proj2 (proj2 (X8_tags_of_missing_or_odd_keywords
             (VDict [("identification", VDict [("keywords", VInt 7)])])))
             (VInt 7)); reflexivity.
Defined.

(** ** Geometry builder *)

(** X9.  A document without a spatial extent makes [_get_wgs84_bbox]
    raise [IndexError], after the warning of the extractor: the empty string
    returned for the missing path has no first element.  An empty list of
    extents raises [IndexError] as well. *)
Theorem X9_no_extent_raises_IndexError :
  forall mcf : value,
    (forall key,
        missing_segment mcf ["identification"; "extents"; "spatial"]%list
        = Some key ->
        (_get_wgs84_bbox mcf).2 = Raise IndexError
        /\ warnings (_get_wgs84_bbox mcf).1
           = [missing_warning "identification.extents.spatial" key])
    /\ (nested mcf ["identification"; "extents"; "spatial"]%list
        = Some (VList []) ->
        (_get_wgs84_bbox mcf).2 = Raise IndexError).
Proof.
  intros mcf. unfold _get_wgs84_bbox. split.
  - intros key H.
    by rewrite (get_from_mcf_missing mcf "identification.extents.spatial" key H).
  - intros H.
    by rewrite (get_from_mcf_present mcf "identification.extents.spatial" _ H).
Qed.

Lemma X9_witness :
  ((_get_wgs84_bbox (VDict [("identification", VDict [("extents", VDict [])])])).2
   = Raise IndexError
   /\ warnings
        (_get_wgs84_bbox (VDict [("identification", VDict [("extents", VDict [])])])).1
      = [missing_warning "identification.extents.spatial" "spatial"])
  /\ (_get_wgs84_bbox
        (VDict [("identification",
                  VDict [("extents", VDict [("spatial", VList [])])])])).2
     = Raise IndexError.
Proof.
  split.
  - apply (proj1 (X9_no_extent_raises_IndexError
                    (VDict [("identification", VDict [("extents", VDict [])])]))
             "spatial").
    reflexivity.
  - apply (proj2 (X9_no_extent_raises_IndexError
             (VDict [("identification",
                       VDict [("extents", VDict [("spatial", VList [])])])]))).
    reflexivity.
Defined.

(** X10.  With a [crs] of 4326, the [bbox] must be there and unpack into
    exactly four items: an extent without [bbox] raises [KeyError('bbox')],
    a [bbox] of any other number of items raises [ValueError], and one that
    cannot be iterated raises [TypeError]. *)
Theorem X10_bbox_must_unpack_into_four :
  forall (mcf extent : value) (others : list value) (crs : value),
    nested mcf ["identification"; "extents"; "spatial"]%list
    = Some (VList (extent :: others)) ->
    subscript extent "crs" = Ok crs ->
    int crs = Ok 4326 ->
    (subscript extent "bbox" = Raise (KeyError (VStr "bbox")) ->
     (_get_wgs84_bbox mcf).2 = Raise (KeyError (VStr "bbox")))
    /\ (forall bbox items,
          subscript extent "bbox" = Ok bbox -> iterate bbox = Ok items ->
          length items <> 4%nat ->
          (_get_wgs84_bbox mcf).2 = Raise ValueError)
    /\ (forall bbox,
          subscript extent "bbox" = Ok bbox -> iterate bbox = Raise TypeError ->
          (_get_wgs84_bbox mcf).2 = Raise TypeError).
Proof.
  intros mcf extent others crs Hs Hc Hi.
  rewrite (wgs84_bbox_at_extent mcf extent others crs Hs Hc), Hi. simpl.
  split; [|split].
  - by intros ->.
  - intros bbox items -> -> Hlen.
    by destruct items as [|a [|b [|c [|d [|? ?]]]]].
  - by intros bbox -> ->.
Qed.

Lemma X10_witness :
  (_get_wgs84_bbox (mcf_with_bbox [])).2 = Raise (KeyError (VStr "bbox"))
  /\ (_get_wgs84_bbox
        (mcf_with_bbox [("bbox", VList [VInt 10; VInt 20; VInt 30])])).2
     = Raise ValueError
  /\ (_get_wgs84_bbox (mcf_with_bbox [("bbox", VNone)])).2 = Raise TypeError.
Proof.
  split; [|split].
  - apply (proj1 (X10_bbox_must_unpack_into_four
                    (mcf_with_bbox []) _ [] (VStr "4326")
                    eq_refl eq_refl eq_refl)).
    reflexivity.
  - apply (proj1 (proj2 (X10_bbox_must_unpack_into_four
             (mcf_with_bbox [("bbox", VList [VInt 10; VInt 20; VInt 30])])
             _ [] (VStr "4326") eq_refl eq_refl eq_refl))
             (VList [VInt 10; VInt 20; VInt 30]) [VInt 10; VInt 20; VInt 30]);
      [reflexivity | reflexivity | discriminate].
  - apply (proj2 (proj2 (X10_bbox_must_unpack_into_four
             (mcf_with_bbox [("bbox", VNone)])
             _ [] (VStr "4326") eq_refl eq_refl eq_refl))
             VNone); reflexivity.
Defined.

(** ** Reconciliation driver *)

Lemma in_calls_bind {A B} (m : M A) (k : A -> M B) c :
  quiet m -> In c (calls (bind m k).1) ->
  exists a, m.2 = Ok a /\ In c (calls (k a).1).
Proof.
  unfold quiet. destruct m as [evs [a|e]]; cbn; intros Hq Hin.
  - rewrite calls_app, Hq in Hin. by exists a.
  - rewrite Hq in Hin. destruct Hin.
Qed.

Lemma quiet_emit_info line : quiet (emit (Info line)).
Proof. done. Qed.

(** What a [package_create] call of the CREATE branch is given. *)
Lemma create_package_fields catalog mcf title name fields :
  In (PackageCreate fields) (calls (create_package catalog mcf title name).1) ->
  pc_name fields = name /\ pc_title fields = title
  /\ pc_private fields = false /\ pc_owner_org fields = "natcap"
  /\ pc_groups fields = []
  /\ (_create_tags_dicts mcf).2 = Ok (pc_tags fields)
  /\ exists coordinates,
       (_get_wgs84_bbox mcf).2 = Ok coordinates
       /\ pc_extras fields = [spatial_extra coordinates].
Proof.
  unfold create_package. intros H.
  apply in_calls_bind in H as ([] & _ & H); [|apply quiet_emit_info].
  do 6 (apply in_calls_bind in H as (? & _ & H); [|apply quiet_lift]).
  do 3 (apply in_calls_bind in H as (? & _ & H); [|apply quiet_get_from_mcf]).
  apply in_calls_bind in H as (tags & Htags & H); [|apply quiet_create_tags_dicts].
  apply in_calls_bind in H as (coordinates & Hc & H); [|apply quiet_get_wgs84_bbox].
  unfold action in H. cbn [fst] in H. rewrite calls_cons, calls_nil in H.
  destruct H as [[= <-]|[]]. cbn.
  split_and!; try done. by exists coordinates.
Qed.

Lemma attach_resource_calls env catalog pkg_dict :
  calls (attach_resource env catalog pkg_dict).1 = attach_calls env pkg_dict.
Proof.
  unfold attach_resource, attach_calls, action.
  destruct (pkg_resources pkg_dict); [|done].
  cbn. by destruct (resource_create catalog _).
Qed.

(** The calls of the outer [try], case by case. *)
Lemma reconcile_cases env catalog mcf title name :
  let cs := calls (reconcile env catalog mcf title name).1 in
  (exists p, package_show catalog name = Ok p
             /\ cs = PackageShow name :: attach_calls env p)
  \/ (exists e, package_show catalog name = Raise e /\ e <> NotFound
                /\ cs = [PackageShow name])
  \/ (package_show catalog name = Raise NotFound
      /\ calls (create_package catalog mcf title name).1 = []
      /\ cs = [PackageShow name])
  \/ (package_show catalog name = Raise NotFound
      /\ exists fields,
           calls (create_package catalog mcf title name).1 = [PackageCreate fields]
           /\ ((exists p, package_create catalog fields = Ok p
                          /\ cs = PackageShow name :: PackageCreate fields
                                  :: attach_calls env p)
               \/ (exists e, package_create catalog fields = Raise e
                             /\ cs = [PackageShow name; PackageCreate fields]))).
Proof.
  intros cs. subst cs.
  pose proof (create_package_shape catalog mcf title name) as Hs.
  unfold reconcile, lookup_or_create.
  destruct (create_package catalog mcf title name) as [cevs cr].
  unfold create_shape in Hs. cbn [fst snd] in Hs |- *.
  unfold action. cbn.
  destruct (package_show catalog name) as [p|e] eqn:Eshow; cbn.
  - left. exists p. split; [done|].
    pose proof (attach_resource_calls env catalog p) as Ha.
    destruct (attach_resource env catalog p) as [aevs [[]|e]]; cbn in *.
    + norm_calls. congruence.
    + destruct e; cbn; norm_calls; rewrite ?app_nil_r; congruence.
  - assert (e = NotFound \/ e <> NotFound) as [->|Hne]
      by (destruct e; ((by left) || (by right))).
    2: { right; left. exists e. split_and!; [done..|]. by destruct e. }
    right; right. cbn.
    destruct Hs as [[Hc [e' ->]]|(fields & Hc & ->)].
    + left. split_and!; [done..|]. destruct e'; cbn; norm_calls; rewrite Hc; cbn; rewrite ?app_nil_r; congruence.
    + right. split; [done|]. exists fields. split; [done|].
      destruct (package_create catalog fields) as [p|e'] eqn:Ecreate; cbn.
      * left. exists p. split; [done|].
        pose proof (attach_resource_calls env catalog p) as Ha.
        destruct (attach_resource env catalog p) as [aevs [[]|e]]; cbn in *.
        -- norm_calls. rewrite Hc. cbn. congruence.
        -- destruct e; cbn; norm_calls; rewrite Hc; cbn; rewrite ?app_nil_r; congruence.
      * right. exists e'. split; [done|].
        destruct e'; cbn; norm_calls; rewrite Hc; cbn; rewrite ?app_nil_r; congruence.
Qed.

(** The calls of a run, with the title and the name the outer [try] is
    given. *)
Lemma main_calls_reconcile env catalog c :
  In c (calls (main env catalog).1) ->
  c = OrganizationList "natcap" \/ c = LicenseList
  \/ exists title name,
       (_get_from_mcf (yaml_load env) "identification.title").2 = Ok title
       /\ (_get_from_mcf (yaml_load env) "metadata.identifier").2 = Ok name
       /\ calls (main env catalog).1
          = [OrganizationList "natcap"; LicenseList]
            ++ calls (reconcile env catalog (yaml_load env) title name).1
       /\ (main env catalog).2
          = (reconcile env catalog (yaml_load env) title name).2
       /\ In c (calls (reconcile env catalog (yaml_load env) title name).1).
Proof.
  intros Hin.
  assert (Hshort : forall cs, cs = [OrganizationList "natcap"]
                              \/ cs = [OrganizationList "natcap"; LicenseList] ->
                              In c cs ->
                              c = OrganizationList "natcap" \/ c = LicenseList).
  { intros cs [->| ->] H; cbn in H; intuition. }
  destruct (organization_list catalog "natcap") as [orgs|e] eqn:Horg.
  2: { apply (or_introl (B := False)) in Hin.
       assert (calls (main env catalog).1 = [OrganizationList "natcap"]) as E
         by (unfold main, action; by rewrite Horg).
       rewrite E in Hin. destruct Hin as [Hin|[]].
       destruct (Hshort _ (or_introl eq_refl) Hin); auto. }
  destruct (license_list catalog) as [licenses|e] eqn:Hlic.
  2: { assert (calls (main env catalog).1
               = [OrganizationList "natcap"; LicenseList]) as E
         by (unfold main, action; by rewrite Horg, Hlic).
       rewrite E in Hin. destruct (Hshort _ (or_intror eq_refl) Hin); auto. }
  pose proof (quiet_validate_license (yaml_load env) licenses) as Hqv.
  pose proof (quiet_get_from_mcf (yaml_load env) "identification.title") as Hqt.
  pose proof (quiet_get_from_mcf (yaml_load env) "metadata.identifier") as Hqn.
  unfold quiet in Hqv, Hqt, Hqn.
  destruct (validate_license (yaml_load env) licenses).2 as [[]|e] eqn:Hv.
  2: { rewrite (main_license_failure _ _ _ _ _ Horg Hlic Hv) in Hin.
       cbn [fst] in Hin. rewrite calls_prelude in Hin.
       destruct (Hshort _ (or_intror eq_refl) Hin); auto. }
  destruct (_get_from_mcf (yaml_load env) "identification.title").2
    as [title|e] eqn:Ht.
  2: { assert (calls (main env catalog).1
               = [OrganizationList "natcap"; LicenseList]) as E.
       { unfold main, action. rewrite Horg, Hlic. cbn.
         destruct (validate_license _ _) as [evs r]. cbn in Hv, Hqv. subst r. cbn.
         destruct (_get_from_mcf _ "identification.title") as [evt rt].
         cbn in Ht, Hqt. subst rt. cbn. norm_calls. by rewrite Hqv, Hqt. }
       rewrite E in Hin. destruct (Hshort _ (or_intror eq_refl) Hin); auto. }
  destruct (_get_from_mcf (yaml_load env) "metadata.identifier").2
    as [name|e] eqn:Hn.
  2: { assert (calls (main env catalog).1
               = [OrganizationList "natcap"; LicenseList]) as E.
       { unfold main, action. rewrite Horg, Hlic. cbn.
         destruct (validate_license _ _) as [evs r]. cbn in Hv, Hqv. subst r. cbn.
         destruct (_get_from_mcf _ "identification.title") as [evt rt].
         cbn in Ht, Hqt. subst rt. cbn.
         destruct (_get_from_mcf _ "metadata.identifier") as [evn rn].
         cbn in Hn, Hqn. subst rn. cbn. norm_calls. by rewrite Hqv, Hqt, Hqn. }
       rewrite E in Hin. destruct (Hshort _ (or_intror eq_refl) Hin); auto. }
  assert (calls (main env catalog).1
          = [OrganizationList "natcap"; LicenseList]
            ++ calls (reconcile env catalog (yaml_load env) title name).1) as E.
  { rewrite (main_reaches_reconcile _ _ _ _ _ _ Horg Hlic Hv Ht Hn). cbn [fst].
    rewrite !calls_app, calls_prelude, Hqt, Hqn. done. }
  rewrite E in Hin. cbn in Hin.
  destruct Hin as [<-|[<-|Hin]]; [by left | by right; left |].
  right; right. exists title, name. split_and!; try done.
  by rewrite (main_reaches_reconcile _ _ _ _ _ _ Horg Hlic Hv Ht Hn).
Qed.

(** X11.  The [for author_key in possible_author_keys] loop stops at the
    first key whose entry in the contact is truthy; when no entry is, it
    ends on the last key, whatever its entry.  Every key tried must be in
    the contact: a missing one raises, also when a later key has a truthy
    entry. *)
Theorem X11_author_key_is_first_truthy_or_last :
  forall (info : value) (k : string) (rest : list string),
    (forall r,
        author_key_loop info k rest = Ok r ->
        exists before after v,
          k :: rest = before ++ r :: after
          /\ (forall b, In b before ->
                exists w, subscript info b = Ok w /\ truthy w = false)
          /\ subscript info r = Ok v
          /\ (truthy v = true \/ after = []))
    /\ (forall e, subscript info k = Raise e ->
                  author_key_loop info k rest = Raise e).
Proof.
  intros info k rest. split.
  - revert k. induction rest as [|k' rest IH]; intros k r; simpl.
    + destruct (subscript info k) as [v|e] eqn:E; [|discriminate].
      intros H. assert (r = k) as -> by (destruct (truthy v); congruence).
      exists [], [], v. split_and!; [done | intros b [] | done | by right].
    + destruct (subscript info k) as [v|e] eqn:E; [|discriminate].
      destruct (truthy v) eqn:Tv.
      * intros [= <-]. exists [], (k' :: rest), v.
        split_and!; [done | intros b [] | done | by left].
      * intros (before & after & w & Hsplit & Hb & Hr & Hlast)%IH.
        exists (k :: before), after, w. split_and!; try done.
        -- simpl. by rewrite Hsplit.
        -- intros b [<-|Hin]; [by exists v | by apply Hb].
  - intros e E. destruct rest; simpl; by rewrite E.
Qed.

Lemma X11_witness :
  exists before after v,
    "individualname"%string :: ["organization"%string]
    = before ++ "organization"%string :: after
    /\ (forall b, In b before ->
          exists w,
            subscript (VDict [("individualname", VStr ""); ("organization", VStr "NatCap")]) b
            = Ok w /\ truthy w = false)
    /\ subscript (VDict [("individualname", VStr ""); ("organization", VStr "NatCap")])
                 "organization" = Ok v
    /\ (truthy v = true \/ after = []).
Proof.
  apply (proj1 (X11_author_key_is_first_truthy_or_last
                  (VDict [("individualname", VStr ""); ("organization", VStr "NatCap")])
                  "individualname" ["organization"%string])).
  reflexivity.
Defined.

Lemma attach_calls_only_resource env p c :
  In c (attach_calls env p) ->
  pkg_resources p = [] /\ c = ResourceCreate (resource_of env p).
Proof.
  unfold attach_calls. destruct (pkg_resources p); [|intros []].
  intros [<-|[]]. done.
Qed.

(** X12.  [main] creates a dataset only after the lookup of that very name
    answered [NotFound], and only once the whole record could be derived:
    the name and the title are those of the document, the record is public,
    owned by [natcap], in no group, its tags are those of the keywords and
    its only extra is the polygon of an extent that passed the CRS check. *)
Theorem X12_dataset_created_only_after_NotFound :
  forall (env : environment) (catalog : RemoteCKAN) (fields : package_fields),
    In (PackageCreate fields) (calls (main env catalog).1) ->
    (_get_from_mcf (yaml_load env) "metadata.identifier").2 = Ok (pc_name fields)
    /\ (_get_from_mcf (yaml_load env) "identification.title").2
       = Ok (pc_title fields)
    /\ package_show catalog (pc_name fields) = Raise NotFound
    /\ pc_private fields = false /\ pc_owner_org fields = "natcap"
    /\ pc_groups fields = []
    /\ (_create_tags_dicts (yaml_load env)).2 = Ok (pc_tags fields)
    /\ exists coordinates,
         (_get_wgs84_bbox (yaml_load env)).2 = Ok coordinates
         /\ pc_extras fields = [spatial_extra coordinates].
Proof.
  intros env catalog fields Hin.
  apply main_calls_reconcile in Hin
    as [[=]|[[=]|(title & name & Ht & Hn & _ & _ & Hin)]].
  assert (package_show catalog name = Raise NotFound
          /\ In (PackageCreate fields)
                (calls (create_package catalog (yaml_load env) title name).1))
    as [Hshow Hc].
  { destruct (reconcile_cases env catalog (yaml_load env) title name)
      as [(p & _ & E)|[(e & _ & _ & E)|[(_ & _ & E)|(Hshow & f & Hc & H)]]];
      cbn zeta in *.
    - rewrite E in Hin. destruct Hin as [[=]|Hin].
      by apply attach_calls_only_resource in Hin as [_ [=]].
    - rewrite E in Hin. by destruct Hin as [[=]|[]].
    - rewrite E in Hin. by destruct Hin as [[=]|[]].
    - split; [done|]. rewrite Hc.
      destruct H as [(p & _ & E)|(e & _ & E)]; rewrite E in Hin.
      + destruct Hin as [[=]|[[= <-]|Hin]]; [by left|].
        by apply attach_calls_only_resource in Hin as [_ [=]].
      + destruct Hin as [[=]|[[= <-]|[]]]. by left. }
  apply create_package_fields in Hc as (-> & -> & ? & ? & ? & ? & ?).
  done.
Qed.

Lemma X12_witness :
  package_show (catalog_with ∅) (VStr "my-dataset") = Raise NotFound.
Proof.
  assert (exists fields, In (PackageCreate fields) (calls scenario_A.1)
                         /\ pc_name fields = VStr "my-dataset")
    as (fields & Hin & <-).
  { vm_compute. eexists. split; [right; right; right; left; reflexivity|].
    reflexivity. }
  exact (proj1 (proj2 (proj2
    (X12_dataset_created_only_after_NotFound
       (env_with (mcf_with_license [])) (catalog_with ∅) fields Hin)))).
Defined.

Lemma dataset_record_listing catalog cs :
  dataset_record catalog (OrganizationList "natcap" :: LicenseList :: cs)
  = dataset_record catalog cs.
Proof. done. Qed.

(** X13.  The resource [main] attaches describes the file given on the
    command line and belongs to the record obtained: its [package_id] is
    the [id] of the record found or just created, which has no resource
    yet; its hash is ["sha256:"] followed by the SHA-256 of the bytes of the
    file, its size their number, its upload those bytes, its name the base
    name of the path, its format [YML] and its type [application/yaml]. *)
Theorem X13_resource_describes_the_file :
  forall (env : environment) (catalog : RemoteCKAN) (r : resource_fields),
    In (ResourceCreate r) (calls (main env catalog).1) ->
    exists p,
      dataset_record catalog (calls (main env catalog).1) = Some p
      /\ pkg_resources p = []
      /\ rc_package_id r = pkg_id p
      /\ rc_hash r = "sha256:" +:+ Sha256.sha256_hex (file_bytes env)
      /\ rc_size r = Z.of_nat (length (file_bytes env))
      /\ rc_upload r = file_bytes env
      /\ rc_name r = basename (argv1 env)
      /\ rc_format r = "YML" /\ rc_mimetype r = "application/yaml".
Proof.
  intros env catalog r Hin.
  apply main_calls_reconcile in Hin
    as [[=]|[[=]|(title & name & _ & _ & Emain & _ & Hin)]].
  rewrite Emain. cbn [app]. rewrite dataset_record_listing.
  assert (exists p, dataset_record catalog
                      (calls (reconcile env catalog (yaml_load env) title name).1)
                    = Some p
                    /\ pkg_resources p = [] /\ r = resource_of env p)
    as (p & Hrec & Hres & ->).
  { destruct (reconcile_cases env catalog (yaml_load env) title name)
      as [(p & Hshow & E)|[(e & _ & _ & E)|[(_ & _ & E)|(Hshow & f & Hc & H)]]];
      cbn zeta in *.
    - rewrite E in Hin |- *. destruct Hin as [[=]|Hin].
      pose proof Hin as [Hres [= ->]]%attach_calls_only_resource.
      exists p. split_and!; [|done..].
      unfold attach_calls. rewrite Hres. unfold dataset_record. simpl.
      by rewrite Hshow.
    - rewrite E in Hin. by destruct Hin as [[=]|[]].
    - rewrite E in Hin. by destruct Hin as [[=]|[]].
    - destruct H as [(p & Hcreate & E)|(e & _ & E)]; rewrite E in Hin |- *.
      + destruct Hin as [[=]|[[=]|Hin]].
        pose proof Hin as [Hres [= ->]]%attach_calls_only_resource.
        exists p. split_and!; [|done..].
        unfold attach_calls. rewrite Hres. unfold dataset_record. simpl.
        by rewrite Hcreate.
      + by destruct Hin as [[=]|[[=]|[]]]. }
  exists p. split_and!; try done.
  cbn. unfold _hash_file_sha256, Sha256.sha256_hex. by rewrite hash_loop_update.
Qed.

Lemma X13_witness :
  exists p,
    dataset_record (catalog_with ∅) (calls scenario_A.1) = Some p
    /\ pkg_resources p = []
    /\ VStr "my-dataset" = pkg_id p.
Proof.
  assert (exists r, In (ResourceCreate r) (calls scenario_A.1)
                    /\ rc_package_id r = VStr "my-dataset")
    as (r & Hin & <-).
  { vm_compute. eexists. split; [do 4 right; left; reflexivity|]. reflexivity. }
  destruct (X13_resource_describes_the_file
              (env_with (mcf_with_license [])) (catalog_with ∅) r Hin)
    as (p & H1 & H2 & H3 & _).
  exists p. done.
Defined.

(** X14.  In the CREATE branch, a [contact] section that is not a mapping
    (a list of contacts, a string) has no [values]: the [AttributeError] is
    caught by the outer handler, so the run prints the operations of the
    client and ends normally, and no dataset is created. *)
Theorem X14_contact_that_is_no_mapping_ends_run_quietly :
  forall env catalog orgs licenses title name contact,
    organization_list catalog "natcap" = Ok orgs ->
    license_list catalog = Ok licenses ->
    (validate_license (yaml_load env) licenses).2 = Ok tt ->
    (_get_from_mcf (yaml_load env) "identification.title").2 = Ok title ->
    (_get_from_mcf (yaml_load env) "metadata.identifier").2 = Ok name ->
    package_show catalog name = Raise NotFound ->
    subscript (yaml_load env) "contact" = Ok contact ->
    is_mapping contact = false ->
    (main env catalog).2 = Ok tt
    /\ last (main env catalog).1 = Some (Stdout DirCatalogAction)
    /\ calls (main env catalog).1
       = [OrganizationList "natcap"; LicenseList; PackageShow name].
Proof.
  intros env catalog orgs licenses title name contact
         Horg Hlic Hv Ht Hn Hshow Hcontact Hmap.
  rewrite (main_reaches_reconcile _ _ _ _ _ _ Horg Hlic Hv Ht Hn).
  cbn [fst snd]. rewrite !calls_app, calls_prelude.
  rewrite (quiet_get_from_mcf _ "identification.title").
  rewrite (quiet_get_from_mcf _ "metadata.identifier").
  assert (create_package catalog (yaml_load env) title name
          = ([Info (PackageNotFound name)], Raise AttributeError)) as Ec.
  { unfold create_package. rewrite Hcontact. by destruct contact. }
  assert (reconcile env catalog (yaml_load env) title name
          = ([Info (CheckingPackage name); Action (PackageShow name);
              Info (PackageNotFound name)] ++ [Stdout DirCatalogAction], Ok tt))
    as -> by (unfold reconcile, lookup_or_create, action; by rewrite Hshow, Ec).
  cbn [fst snd]. split_and!; [reflexivity | | reflexivity].
  rewrite !app_assoc. apply last_snoc.
Qed.

Lemma X14_witness :
  (main (env_with mcf_contact_list) (catalog_with ∅)).2 = Ok tt
  /\ last (main (env_with mcf_contact_list) (catalog_with ∅)).1
     = Some (Stdout DirCatalogAction)
  /\ calls (main (env_with mcf_contact_list) (catalog_with ∅)).1
     = [OrganizationList "natcap"; LicenseList; PackageShow (VStr "my-dataset")].
Proof.
  apply (X14_contact_that_is_no_mapping_ends_run_quietly
           (env_with mcf_contact_list) (catalog_with ∅)
           (VList [VStr "natcap"]) [cc_by] (VStr "My dataset") (VStr "my-dataset")
           (VList [VDict [("organization", VStr "NatCap")]]));
    reflexivity.
Defined.

(** X15.  When the geometry cannot be built (no extent, a CRS other than
    4326, a malformed [bbox]), the CREATE branch makes no catalog call: a
    run that finds no dataset and cannot build the geometry stops after the
    lookup, nothing is created or attached, and the exception of the branch
    leaves [main] (unless it is an [AttributeError], which the outer handler
    catches). *)
Theorem X15_no_geometry_no_dataset :
  forall env catalog orgs licenses title name e,
    organization_list catalog "natcap" = Ok orgs ->
    license_list catalog = Ok licenses ->
    (validate_license (yaml_load env) licenses).2 = Ok tt ->
    (_get_from_mcf (yaml_load env) "identification.title").2 = Ok title ->
    (_get_from_mcf (yaml_load env) "metadata.identifier").2 = Ok name ->
    package_show catalog name = Raise NotFound ->
    (_get_wgs84_bbox (yaml_load env)).2 = Raise e ->
    calls (main env catalog).1
    = [OrganizationList "natcap"; LicenseList; PackageShow name]
    /\ exists e',
         (create_package catalog (yaml_load env) title name).2 = Raise e'
         /\ (main env catalog).2
            = match e' with AttributeError => Ok tt | _ => Raise e' end.
Proof.
  intros env catalog orgs licenses title name e Horg Hlic Hv Ht Hn Hshow Hbox.
  rewrite (main_reaches_reconcile _ _ _ _ _ _ Horg Hlic Hv Ht Hn).
  cbn [fst snd]. rewrite !calls_app, calls_prelude.
  rewrite (quiet_get_from_mcf _ "identification.title").
  rewrite (quiet_get_from_mcf _ "metadata.identifier").
  pose proof (create_package_shape catalog (yaml_load env) title name)
    as [[Hc [e' He]]|(f & Hc & _)].
  2: { assert (In (PackageCreate f)
                  (calls (create_package catalog (yaml_load env) title name).1))
         as Hin by (rewrite Hc; by left).
       apply create_package_fields in Hin as (_ & _ & _ & _ & _ & _ & c & Hc' & _).
       congruence. }
  unfold reconcile, lookup_or_create, action. rewrite Hshow.
  destruct (create_package catalog (yaml_load env) title name) as [cevs cr].
  cbn in Hc, He. subst cr. split.
  - destruct e'; cbn; norm_calls; rewrite Hc; cbn; rewrite ?app_nil_r; done.
  - exists e'. split; [done|]. by destruct e'.
Qed.

Lemma X15_witness :
  calls (main (env_with mcf_web_mercator) (catalog_with ∅)).1
  = [OrganizationList "natcap"; LicenseList; PackageShow (VStr "my-dataset")].
Proof.
  apply (X15_no_geometry_no_dataset
           (env_with mcf_web_mercator) (catalog_with ∅)
           (VList [VStr "natcap"]) [cc_by] (VStr "My dataset") (VStr "my-dataset")
           (AssertionError "CRS must be EPSG:4326"));
    reflexivity.
Defined.

Lemma reconcile_after_create env catalog mcf title name fields p :
  package_show catalog name = Raise NotFound ->
  calls (create_package catalog mcf title name).1 = [PackageCreate fields] ->
  package_create catalog fields = Ok p ->
  (reconcile env catalog mcf title name).2
  = match (attach_resource env catalog p).2 with
    | Raise AttributeError => Ok tt
    | r => r
    end.
Proof.
  intros Hshow Hc Hcreate.
  pose proof (create_package_shape catalog mcf title name)
    as [[Hc' _]|(f & Hc' & Hr)]; [congruence|].
  assert (f = fields) as -> by congruence.
  unfold reconcile, lookup_or_create, action. rewrite Hshow.
  destruct (create_package catalog mcf title name) as [cevs cr].
  cbn in Hr. subst cr. rewrite Hcreate. cbn.
  destruct (attach_resource env catalog p) as [aevs [[]|e]]; [done|].
  by destruct e.
Qed.

(** X16.  Nothing is rolled back: when the dataset has been created and
    the call that attaches the resource fails, the failure leaves [main]
    (an [AttributeError] is caught by the outer handler and the run ends
    normally), and both calls were made, so the catalog keeps a dataset
    without resource. *)
Theorem X16_failed_attachment_keeps_the_dataset :
  forall env catalog fields p e,
    In (PackageCreate fields) (calls (main env catalog).1) ->
    package_create catalog fields = Ok p ->
    pkg_resources p = [] ->
    resource_create catalog (resource_of env p) = Raise e ->
    In (ResourceCreate (resource_of env p)) (calls (main env catalog).1)
    /\ (main env catalog).2
       = match e with AttributeError => Ok tt | _ => Raise e end.
Proof.
  intros env catalog fields p e Hin Hcreate Hres Hfail.
  apply main_calls_reconcile in Hin
    as [[=]|[[=]|(title & name & _ & _ & Emain & Eres & Hin)]].
  rewrite Emain, Eres.
  destruct (reconcile_cases env catalog (yaml_load env) title name)
    as [(q & _ & E)|[(e' & _ & _ & E)|[(_ & _ & E)|(Hshow & f & Hc & H)]]];
    cbn zeta in *.
  - rewrite E in Hin. destruct Hin as [[=]|Hin].
    by apply attach_calls_only_resource in Hin as [_ [=]].
  - rewrite E in Hin. by destruct Hin as [[=]|[]].
  - rewrite E in Hin. by destruct Hin as [[=]|[]].
  - assert (f = fields) as ->.
    { destruct H as [(q & _ & E)|(e' & _ & E)]; rewrite E in Hin.
      - destruct Hin as [[=]|[[=]|Hin]]; [done|].
        by apply attach_calls_only_resource in Hin as [_ [=]].
      - by destruct Hin as [[=]|[[=]|[]]]. }
    destruct H as [(q & Hq & E)|(e' & He' & _)]; [|congruence].
    assert (q = p) as -> by congruence.
    split.
    + rewrite E. unfold attach_calls. rewrite Hres.
      apply in_or_app. right. simpl. auto.
    + rewrite (reconcile_after_create env catalog _ title name fields p Hshow Hc Hcreate).
      unfold attach_resource, action. rewrite Hres.
      change (resource_create catalog _) with (resource_create catalog (resource_of env p)).
      rewrite Hfail. cbn. by destruct e.
Qed.

Lemma X16_witness :
  (main (env_with (mcf_with_license [])) catalog_refusing_resources).2
  = Raise (CKANAPIError "Request Entity Too Large").
Proof.
  assert (exists fields,
             In (PackageCreate fields)
                (calls (main (env_with (mcf_with_license []))
                             catalog_refusing_resources).1)
             /\ package_create catalog_refusing_resources fields
                = Ok {| pkg_id := VStr "my-dataset"; pkg_resources := [] |})
    as (fields & Hin & Hcreate).
  { vm_compute. eexists. split; [right; right; right; left; reflexivity|].
    reflexivity. }
  exact (proj2 (X16_failed_attachment_keeps_the_dataset
                  (env_with (mcf_with_license [])) catalog_refusing_resources
                  fields _ (CKANAPIError "Request Entity Too Large")
                  Hin Hcreate eq_refl eq_refl)).
Defined.

Lemma reconcile_calls_start env catalog mcf title name :
  exists cs,
    calls (reconcile env catalog mcf title name).1 = PackageShow name :: cs.
Proof.
  destruct (reconcile_cases env catalog mcf title name)
    as [(p & _ & E)|[(e & _ & _ & E)|[(_ & _ & E)|(_ & f & _ & H)]]];
    cbn zeta in *; [by eexists..|].
  destruct H as [(p & _ & E)|(e & _ & E)]; by eexists.
Qed.

(** X17.  [main] ends normally only after it has looked the dataset up
    under the identifier of the document: every failure before the lookup
    (of a listing, of the license check, of the extraction of the title or
    of the identifier) leaves [main] as an exception, an [AttributeError]
    too, since the outer handler does not cover that part. *)
Theorem X17_normal_end_implies_lookup :
  forall (env : environment) (catalog : RemoteCKAN),
    (main env catalog).2 = Ok tt ->
    exists name,
      (_get_from_mcf (yaml_load env) "metadata.identifier").2 = Ok name
      /\ In (PackageShow name) (calls (main env catalog).1).
Proof.
  intros env catalog Hok.
  destruct (organization_list catalog "natcap") as [orgs|e] eqn:Horg.
  2: { unfold main, action in Hok. rewrite Horg in Hok. discriminate Hok. }
  destruct (license_list catalog) as [licenses|e] eqn:Hlic.
  2: { unfold main, action in Hok. rewrite Horg, Hlic in Hok. discriminate Hok. }
  destruct (validate_license (yaml_load env) licenses).2 as [[]|e] eqn:Hv.
  2: { rewrite (main_license_failure _ _ _ _ _ Horg Hlic Hv) in Hok.
       discriminate Hok. }
  destruct (_get_from_mcf (yaml_load env) "identification.title").2
    as [title|e] eqn:Ht.
  2: { unfold main, action in Hok. rewrite Horg, Hlic in Hok. cbn in Hok.
       destruct (validate_license _ _) as [evs r]. cbn in Hv. subst r. cbn in Hok.
       destruct (_get_from_mcf _ "identification.title") as [evt rt].
       cbn in Ht. subst rt. discriminate Hok. }
  destruct (_get_from_mcf (yaml_load env) "metadata.identifier").2
    as [name|e] eqn:Hn.
  2: { unfold main, action in Hok. rewrite Horg, Hlic in Hok. cbn in Hok.
       destruct (validate_license _ _) as [evs r]. cbn in Hv. subst r. cbn in Hok.
       destruct (_get_from_mcf _ "identification.title") as [evt rt].
       cbn in Ht. subst rt. cbn in Hok.
       destruct (_get_from_mcf _ "metadata.identifier") as [evn rn].
       cbn in Hn. subst rn. discriminate Hok. }
  exists name. split; [done|].
  rewrite (main_reaches_reconcile _ _ _ _ _ _ Horg Hlic Hv Ht Hn). cbn [fst].
  destruct (reconcile_calls_start env catalog (yaml_load env) title name)
    as [cs E].
  rewrite !calls_app, E. rewrite !in_app_iff. do 3 right. by left.
Qed.

Lemma X17_witness :
  exists name,
    (_get_from_mcf (yaml_load (env_with (mcf_with_license [])))
                   "metadata.identifier").2 = Ok name
    /\ In (PackageShow name) (calls scenario_B.1).
Proof.
  apply (X17_normal_end_implies_lookup (env_with (mcf_with_license [])) _).
  vm_compute. reflexivity.
Defined.

(** X18.  A document whose [identification.license] is missing or falsy
    (an empty string, an empty mapping, a null) is not checked against the
    license list: the license check ends normally whatever the list holds,
    after the one extraction. *)
Theorem X18_falsy_license_is_not_checked :
  forall (mcf : value) (licenses : list license) (declared : value),
    (_get_from_mcf mcf "identification.license").2 = Ok declared ->
    truthy declared = false ->
    validate_license mcf licenses
    = ((_get_from_mcf mcf "identification.license").1, Ok tt).
Proof.
  intros mcf licenses declared Hd Hf. unfold validate_license.
  destruct (_get_from_mcf mcf "identification.license") as [evs r].
  cbn in Hd. subst r. cbn. rewrite Hf. cbn. by rewrite app_nil_r.
Qed.

Lemma X18_witness :
  validate_license (mcf_with_license [("license", VDict [])]) []
  = ((_get_from_mcf (mcf_with_license [("license", VDict [])])
                    "identification.license").1, Ok tt).
Proof.
  apply (X18_falsy_license_is_not_checked _ [] (VDict [])); reflexivity.
Defined.

Lemma get_from_mcf_non_mapping mcf dot_keys prefix key rest x :
  PyStr.split_char "." dot_keys = prefix ++ key :: rest ->
  nested mcf prefix = Some x -> is_mapping x = false ->
  _get_from_mcf mcf dot_keys = ([Stdout (LookingFor dot_keys)], Raise TypeError).
Proof.
  intros Hs Hp Hx. unfold _get_from_mcf.
  by rewrite Hs, (walk_non_mapping dot_keys _ _ key rest _ Hp Hx).
Qed.

(** X19.  A license declared as a plain value that is not a mapping (for
    instance the string ["CC-BY-4.0"]) makes the license check raise
    [TypeError]: its [name] is asked of a value that has none. *)
Theorem X19_license_given_as_string_raises_TypeError :
  forall (mcf : value) (licenses : list license) (declared : value),
    nested mcf ["identification"; "license"]%list = Some declared ->
    truthy declared = true ->
    is_mapping declared = false ->
    (validate_license mcf licenses).2 = Raise TypeError.
Proof.
  intros mcf licenses declared Hd Ht Hm. unfold validate_license.
  rewrite (get_from_mcf_present mcf "identification.license" declared Hd).
  cbn. rewrite Ht.
  by rewrite (get_from_mcf_non_mapping mcf "identification.license.name"
                ["identification"; "license"]%list "name" [] declared
                eq_refl Hd Hm).
Qed.

Lemma X19_witness :
  (validate_license sample_mcf [cc_by]).2 = Raise TypeError.
Proof.
  apply (X19_license_given_as_string_raises_TypeError
           sample_mcf [cc_by] (VStr "CC-BY-4.0")); reflexivity.
Defined.

Lemma missing_segment_last v prefix d key :
  nested v prefix = Some (VDict d) -> assoc key d = None ->
  missing_segment v (prefix ++ [key]) = Some key.
Proof.
  revert v. induction prefix as [|k prefix IH]; intros v H Hk; simpl in *.
  - injection H as ->. by rewrite Hk.
  - destruct v as [| | | | | |d']; try discriminate H.
    destruct (assoc k d'); [by apply IH | discriminate H].
Qed.

#[local] Arguments _find_license : simpl never.

(** X20.  A license declared by name only cannot pass the license check:
    the missing [url] is extracted as the empty string, which
    [_find_license] turns into ["/"] and looks up in the URL index, so the
    check raises [KeyError('/')] unless some known license has the [url]
    ["/"]; the name is not used. *)
Theorem X20_license_without_url_raises_KeyError :
  forall (mcf : value) (licenses : list license)
         (declared : list (string * value)) (license_string : string),
    nested mcf ["identification"; "license"]%list = Some (VDict declared) ->
    declared <> [] ->
    assoc "url" declared = None ->
    (_get_from_mcf mcf "identification.license.name").2 = Ok (VStr license_string) ->
    (forall L, In L licenses -> lic_url L <> "/") ->
    (validate_license mcf licenses).2 = Raise (KeyError (VStr "/")).
Proof.
  intros mcf licenses declared license_string Hd Hne Hurl Hname Hknown.
  pose proof (missing_segment_last mcf ["identification"; "license"]%list
                declared "url" Hd Hurl) as Hmiss.
  unfold validate_license.
  rewrite (get_from_mcf_present mcf "identification.license" _ Hd).
  destruct declared as [|kv declared']; [done|]. cbn.
  destruct (_get_from_mcf mcf "identification.license.name") as [evs r].
  cbn in Hname. subst r. cbn.
  rewrite (get_from_mcf_missing mcf "identification.license.url" "url" Hmiss).
  cbn. rewrite find_license_by_url.
  by rewrite (url_lookup_KeyError licenses (normalize_url "") Hknown).
Qed.

Lemma X20_witness :
  (validate_license
     (mcf_with_license [("license", VDict [("name", VStr "CC-BY 4.0")])])
     [cc_by]).2
  = Raise (KeyError (VStr "/")).
Proof.
  apply (X20_license_without_url_raises_KeyError
           (mcf_with_license [("license", VDict [("name", VStr "CC-BY 4.0")])])
           [cc_by] [("name", VStr "CC-BY 4.0")] "CC-BY 4.0");
    try reflexivity; [discriminate|].
  intros L [<-|[]]. vm_compute. discriminate.
Defined.
